(** * gendocs: the command handlers

    The first part is the [domains:add] certificate-provisioning monitor,
    the second the handlers [register], [publish] and [subdomain:set],
    the repository functions they call and the error reporting of [run].

    The monitor is a shallow embedding of the [domains:add] handler of
    [src/commandHandler.ts] (lines 204-259) together with the part of the
    JavaScript runtime it talks to: the two timers made by [setInterval]
    and [setTimeout], the in-flight [repository.domainStatus] requests of
    the [async] interval callback, and the lines written through [logger].

    The handler is event driven, so the embedding is a transition system:
    a [state] of the runtime and of the handler's closure, the handler's
    three pieces of code ([interval_callback], [interval_callback_resume],
    [timeout_callback]) as state transformers, and a [step] function that
    dispatches one event of the event loop. *)

From Stdlib Require Import ZArith List String Ascii Bool Lia.
Import ListNotations.

Local Open Scope Z_scope.
Local Open Scope string_scope.

(** ** Data *)

(** [logger.info] and [logger.error]. *)
Inductive level : Type := Info | Error.

Definition log_line : Type := (level * string)%type.

(** The value a [domainStatus] promise resolves to:
    [{ status: string, context?: string }]. An absent [context] is [None]. *)
Record result : Type := mkResult {
  status : string;
  context : option string
}.

(** A timer of the runtime. [every = Some p] for a timer made by
    [setInterval(_, p)], [None] for one made by [setTimeout]. *)
Record timer : Type := mkTimer {
  due : Z;
  every : option Z
}.

(** The runtime and the closure of one [domains:add] invocation.
    Times are milliseconds since the handler installed its timers. *)
Record state : Type := mkState {
  clock : Z;                      (* time of the last timer dispatch *)
  interval : option timer;        (* [const interval]: [None] once cleared *)
  timeout_timer : option timer;   (* timer behind [timeout]: [None] once fired or cleared *)
  timeout : bool;                 (* [timeout != null]: the variable has been assigned *)
  issued : nat;                   (* number of [domainStatus] calls made *)
  inflight : list nat;            (* calls whose promise has not settled *)
  output : list log_line          (* logger calls, oldest first *)
}.

(** One turn of the event loop. Only resolved promises are events: a call
    whose promise is rejected never resumes the callback, and stays in
    [inflight]. *)
Inductive event : Type :=
| Tick                                (* the interval timer fires *)
| Deadline                            (* the timeout timer fires *)
| Response (id : nat) (r : result).   (* the promise of call [id] resolves *)

(** ** Setters *)

Definition set_clock (t : Z) (s : state) : state :=
  mkState t (interval s) (timeout_timer s) (timeout s) (issued s) (inflight s) (output s).

Definition set_interval (i : option timer) (s : state) : state :=
  mkState (clock s) i (timeout_timer s) (timeout s) (issued s) (inflight s) (output s).

Definition set_timeout_timer (d : option timer) (s : state) : state :=
  mkState (clock s) (interval s) d (timeout s) (issued s) (inflight s) (output s).

Definition set_timeout (b : bool) (s : state) : state :=
  mkState (clock s) (interval s) (timeout_timer s) b (issued s) (inflight s) (output s).

Definition set_inflight (n : nat) (l : list nat) (s : state) : state :=
  mkState (clock s) (interval s) (timeout_timer s) (timeout s) n l (output s).

Definition set_output (o : list log_line) (s : state) : state :=
  mkState (clock s) (interval s) (timeout_timer s) (timeout s) (issued s) (inflight s) o.

(** ** Runtime primitives *)

Definition logger_info (m : string) (s : state) : state :=
  set_output (output s ++ [(Info, m)]) s.

Definition logger_error (m : string) (s : state) : state :=
  set_output (output s ++ [(Error, m)]) s.

Definition setInterval (ms : Z) (s : state) : state :=
  set_interval (Some (mkTimer (clock s + ms) (Some ms))) s.

Definition setTimeout (ms : Z) (s : state) : state :=
  set_timeout_timer (Some (mkTimer (clock s + ms) None)) s.

Definition clearInterval (s : state) : state := set_interval None s.

Definition clearTimeout (s : state) : state := set_timeout_timer None s.

(** [if (timeout != null) { clearTimeout(timeout) }] *)
Definition clearTimeout_if_set (s : state) : state :=
  if timeout s then clearTimeout s else s.

(** ** Messages *)

Definition nl : string := String "010"%char EmptyString.
Definition dquote : string := String "034"%char EmptyString.

Definition site_url (domain : string) : string := "https://" ++ domain ++ "/".

Definition msg_generating : string :=
  nl ++ "    Generating SSL Certificate..." ++ nl ++ "    ".

Definition msg_added (domain : string) : string :=
  nl ++ "    Your domain has been added!" ++
  nl ++ "    The site is now available at " ++ site_url domain ++
  nl ++ "        ".

Definition msg_malformed (domain : string) : string :=
  nl ++ "    The domain " ++ dquote ++ domain ++ dquote ++ " seems to be malformed." ++
  nl ++ "    Please make sure your domain is in the format somedomain.com" ++
  nl ++ "          ".

(** A template literal prints an absent property as [undefined]. *)
Definition render_context (c : option string) : string :=
  match c with
  | Some v => v
  | None => "undefined"
  end.

Definition cert_error_head : string :=
  nl ++ "    Something seems to have gone wrong while trying to generate your ssl certificates." ++
  nl ++ "    Error code: ".

Definition msg_cert_error (c : option string) : string :=
  cert_error_head ++ render_context c ++ nl ++ "        ".

Definition msg_contact : string :=
  "Something seems to have gone wrong. Please contact us through our github.".

(** ** The handler *)

Definition POLL_INTERVAL_MS : Z := 500.
Definition DEADLINE_MS : Z := 20000.

Definition idle : state := mkState 0 None None false 0%nat [] [].

(** [result.context == "invalid_domain"] *)
Definition is_invalid_domain (c : option string) : bool :=
  match c with
  | Some v => v =? "invalid_domain"
  | None => false
  end.

(** The interval callback up to its [await]: the remote call is made. *)
Definition interval_callback (s : state) : state :=
  set_inflight (S (issued s)) (inflight s ++ [issued s]) s.

(** The interval callback after its [await], with the resolved [result]. *)
Definition interval_callback_resume (domain : string) (r : result) (s : state) : state :=
  if status r =? "ok" then
    clearInterval (clearTimeout_if_set (logger_info (msg_added domain) s))
  else if status r =? "pending" then
    s
  else if status r =? "error" then
    if is_invalid_domain (context r) then
      logger_info (msg_malformed domain) s
    else
      clearInterval (clearTimeout_if_set (logger_error (msg_cert_error (context r)) s))
  else
    s.

(** The timeout callback. *)
Definition timeout_callback (s : state) : state :=
  clearInterval (logger_error msg_contact s).

(** The handler from the line after [await repository.addDomain(token, domain)]:
    it logs, installs both timers and assigns [timeout]. *)
Definition domains_add_monitor : state :=
  set_timeout true
    (setTimeout DEADLINE_MS
      (setInterval POLL_INTERVAL_MS
        (logger_info msg_generating idle))).

(** [const token = await authHandler.getToken(); if (token == null) return] *)
Definition domains_add (token : option string) : state :=
  match token with
  | None => idle
  | Some _ => domains_add_monitor
  end.

(** ** The event loop *)

(** A timer due at [t] may fire when no other armed timer is due earlier. *)
Definition due_first (t : Z) (other : option timer) : bool :=
  match other with
  | Some o => (t <=? due o)%Z
  | None => true
  end.

(** Firing a timer: an interval timer is re-armed one period later,
    a timeout timer is spent. *)
Definition rearm (tm : timer) : option timer :=
  match every tm with
  | Some p => Some (mkTimer (due tm + p) (Some p))
  | None => None
  end.

Definition settle (id : nat) (s : state) : state :=
  set_inflight (issued s) (remove Nat.eq_dec id (inflight s)) s.

(** [step domain s e] is [None] when the runtime cannot produce [e] in [s]:
    a cleared or spent timer does not fire, a timer does not overtake an
    earlier one, and only an in-flight call resolves. *)
Definition step (domain : string) (s : state) (e : event) : option state :=
  match e with
  | Tick =>
      match interval s with
      | Some tm =>
          if due_first (due tm) (timeout_timer s)
          then Some (interval_callback (set_interval (rearm tm) (set_clock (due tm) s)))
          else None
      | None => None
      end
  | Deadline =>
      match timeout_timer s with
      | Some tm =>
          if due_first (due tm) (interval s)
          then Some (timeout_callback (set_timeout_timer (rearm tm) (set_clock (due tm) s)))
          else None
      | None => None
      end
  | Response id r =>
      if existsb (Nat.eqb id) (inflight s)
      then Some (interval_callback_resume domain r (settle id s))
      else None
  end.

Fixpoint run (domain : string) (s : state) (sch : list event) : option state :=
  match sch with
  | [] => Some s
  | e :: sch' =>
      match step domain s e with
      | Some s' => run domain s' sch'
      | None => None
      end
  end.

(** ** Observations *)

(** The terminal outcomes of the monitor, read off the log. *)
Inductive Outcome : Type :=
| Succeeded (url : string)
| FailedTerminal (reason : string)
| TimedOut.

Definition classify (domain : string) (l : log_line) : option Outcome :=
  match l with
  | (Info, m) =>
      if m =? msg_added domain then Some (Succeeded (site_url domain))
      else if m =? msg_malformed domain then Some (FailedTerminal m)
      else None
  | (Error, m) =>
      if m =? msg_contact then Some TimedOut
      else if prefix cert_error_head m then Some (FailedTerminal m)
      else None
  end.

Definition outcome_of (domain : string) (l : log_line) : list Outcome :=
  match classify domain l with
  | Some o => [o]
  | None => []
  end.

Definition outcomes (domain : string) (o : list log_line) : list Outcome :=
  flat_map (outcome_of domain) o.

(** [contains needle hay]: [needle] occurs in [hay]. *)
Definition contains (needle hay : string) : Prop :=
  exists pre post, hay = pre ++ needle ++ post.

Definition is_response (e : event) : bool :=
  match e with
  | Response _ _ => true
  | _ => false
  end.

Definition is_deadline (e : event) : bool :=
  match e with
  | Deadline => true
  | _ => false
  end.


(** No response in the schedule is [{status: "error", context: "invalid_domain"}]. *)
Definition not_invalid_domain (e : event) : bool :=
  match e with
  | Response _ r => negb ((status r =? "error") && is_invalid_domain (context r))
  | _ => true
  end.

(** A schedule in which a timer fires only while no call is in flight:
    every response arrives before the next tick and before the deadline. *)
Fixpoint sequential (busy : bool) (sch : list event) : bool :=
  match sch with
  | [] => true
  | Tick :: sch' => negb busy && sequential true sch'
  | Deadline :: sch' => negb busy && sequential busy sch'
  | Response _ _ :: sch' => busy && sequential false sch'
  end.

(** [n] rounds of tick and response, every response being [r]. *)
Fixpoint poll_rounds (r : result) (from n : nat) : list event :=
  match n with
  | O => []
  | S n' => Tick :: Response from r :: poll_rounds r (S from) n'
  end.

Definition ok : result := mkResult "ok" None.
Definition pending : result := mkResult "pending" None.
Definition failed (c : string) : result := mkResult "error" (Some c).

(** ** Invariants and phases of the monitor *)

(** What holds in every state the monitor can reach. *)
Record wf (s : state) : Prop := mkWf {
  wf_timeout : timeout s = true;
  wf_interval :
    interval s = None \/
    interval s = Some (mkTimer (POLL_INTERVAL_MS * (Z.of_nat (issued s) + 1))
                               (Some POLL_INTERVAL_MS));
  wf_deadline :
    timeout_timer s = None \/ timeout_timer s = Some (mkTimer DEADLINE_MS None);
  wf_both : timeout_timer s = None -> interval s = None;
  wf_issued : (issued s <= 40)%nat;
  wf_fresh : Forall (fun id => (id < issued s)%nat) (inflight s)
}.

(** In a sequential schedule at most one call is in flight: none while
    the monitor is not [busy], one while it is. *)
Definition in_step (busy : bool) (s : state) : Prop :=
  if busy then exists id, inflight s = [id] else inflight s = [].

(** The events after which the handler clears its timers: the deadline,
    a response [ok], and a response [error] whose context is not
    [invalid_domain]. *)
Definition clears_timers (e : event) : bool :=
  match e with
  | Tick => false
  | Deadline => true
  | Response _ r =>
      (status r =? "ok") ||
      ((status r =? "error") && negb (is_invalid_domain (context r)))
  end.

(** No outcome reported yet, both timers armed. *)
Definition running (domain : string) (s : state) : Prop :=
  outcomes domain (output s) = [] /\
  interval s <> None /\ timeout_timer s <> None.

(** One outcome reported, both timers gone, nothing in flight. *)
Definition terminated (domain : string) (s : state) : Prop :=
  (exists o, outcomes domain (output s) = [o]) /\
  interval s = None /\ timeout_timer s = None /\ inflight s = [].



(** ** Example states *)

Definition example_domain : string := "docs.example.com".

(** The state after the first tick: one call in flight, no response yet. *)
Definition example_after_tick : state :=
  mkState 500 (Some (mkTimer 1000 (Some 500))) (Some (mkTimer 20000 None))
          true 1 [0%nat] [(Info, msg_generating)].

(** The state after two ticks, [ok] for the first call and [pending] for
    the second. *)
Definition example_succeeded : state :=
  mkState 1000 None None true 2 []
          [(Info, msg_generating); (Info, msg_added example_domain)].

(** The state after thirty-nine rounds of tick and [pending]: the
    interval timer and the timeout timer are both due at 20000ms. *)
Definition example_last_round : state :=
  mkState 19500 (Some (mkTimer 20000 (Some 500))) (Some (mkTimer 20000 None))
          true 39 [] [(Info, msg_generating)].

(** The state after forty rounds of tick and [pending] and the deadline. *)
Definition example_timed_out : state :=
  mkState 20000 None None true 40 []
          [(Info, msg_generating); (Error, msg_contact)].

Ltac inv H := inversion H; subst; clear H.

Ltac not_in_trace H :=
  simpl in H;
  repeat (destruct H as [H|H]; [try discriminate H|]);
  try contradiction.

(** * The other commands

    The handlers of [_handlers] that talk to the server, the functions of
    the repository they call, and the error reporting of [run]. A handler
    is a function of what its collaborators answer (the prompts, the
    config file, the server) and returns the trace of what it does. *)

(** ** Remote calls and their failures *)

Module Http.

Inductive method : Type := GET | POST | PATCH | DELETE.

(** A property of [e.response.data.errors]: a string or an array of strings. *)
Inductive error_value : Type :=
| Text (s : string)
| Messages (l : list string).

(** [response.data]; the properties of [errors] in [for ... in] order. *)
Record response_data : Type := mkData {
  errors : option (list (string * error_value))
}.

(** [e.response] *)
Record reply : Type := mkReply {
  status : option Z;
  data : option response_data
}.

(** What a rejected promise carries, and what [throw Error(...)] throws:
    [response] is [None] for an error that is no HTTP answer. *)
Record error : Type := mkError {
  message : string;
  response : option reply
}.

(** How an awaited remote call settles. *)
Inductive answer (A : Type) : Type :=
| Resolved (a : A)
| Rejected (e : error).

Arguments Resolved {A} a.
Arguments Rejected {A} e.

End Http.

(** The parsed [gendocs.json]. *)
Module Config.

Record config : Type := mkConfig {
  name : string;
  token : option string;
  sourcePath : option string;
  pages : list string
}.

(** [if (config["token"] != null) { delete config["token"] }] *)
Definition delete_token (c : config) : config :=
  match token c with
  | Some _ => mkConfig (name c) None (sourcePath c) (pages c)
  | None => c
  end.

End Config.

(** The repository: every function builds one axios request. *)
Module Repository.

(** A page as [documentHandler.loadPages] generates it. *)
Definition page : Type := string.

Inductive body : Type :=
| UserBody (invitation_token email password : string)
| DocBody (name email password : string)
| CredentialsBody (email password : string)
| UpdateBody (updates : list (string * string))
| PagesBody (token : string) (pages : list page) (config : Config.config)
| DomainBody (domain : string)
| SubdomainBody (subdomain : string).

Record request : Type := mkRequest {
  method : Http.method;
  url : string;
  data : option body
}.

Definition baseUrl : string := "http://localhost:4000/api".

Definition post (relativeUrl : string) (d : body) : request :=
  mkRequest Http.POST (baseUrl ++ relativeUrl) (Some d).


Definition get (relativeUrl : string) : request :=
  mkRequest Http.GET (baseUrl ++ relativeUrl) None.

Definition del (relativeUrl : string) : request :=
  mkRequest Http.DELETE (baseUrl ++ relativeUrl) None.

Definition createUser (invitation email password : string) : request :=
  post "/v1/users" (UserBody invitation email password).

Definition doesEmailExist (email : string) : request :=
  get ("/v1/users/email_exists/" ++ email).




Definition deleteDocument (token : string) : request :=
  del ("/v1/docs/" ++ token).

Definition singleDocument (token : string) : request :=
  get ("/v1/docs/" ++ token).

Definition publish (token : string) (pages : list page) (config : Config.config) : request :=
  post "/v1/pages" (PagesBody token pages config).

Definition addDomain (token domainName : string) : request :=
  post ("/v1/docs/" ++ token ++ "/domains") (DomainBody domainName).

Definition domainStatus (domainName : string) : request :=
  get ("/v1/domains/" ++ domainName).

Definition tryAddingSubdomain (token subdomain : string) : request :=
  post ("/v1/docs/" ++ token ++ "/subdomain") (SubdomainBody subdomain).

Definition validateInvitation (invitation : string) : request :=
  get ("/v1/invitations/" ++ invitation).

End Repository.

(** ** Traces *)

Inductive prompt : Type :=
| PromptInvitation
| PromptEmail
| PromptPassword
| PromptSubdomain.

Inductive effect : Type :=
| Log (l : level) (m : string)                    (* [logger.info(m)], [logger.error(m)] *)
| LogWith (l : level) (m : string) (e : Http.error)  (* [logger.error(m, e)] *)
| Ask (p : prompt)                                (* [await cli.prompt...()] *)
| Send (r : Repository.request).                  (* [await repository...(...)] *)

(** What a handler did, and the error it threw if it did. *)
Definition completion : Type := (list effect * option Http.error)%type.

(** The [TypeError] of reading [e.response.status] where [e.response] is
    undefined. Its text is the engine's, so it is a parameter [tmsg]. *)
Definition type_error (tmsg : string) : Http.error := Http.mkError tmsg None.

(** [e.response.status === code] inside a [catch (e)]. *)
Inductive status_test : Type := Matches | Differs | Throws.

Definition status_is (code : Z) (e : Http.error) : status_test :=
  match Http.response e with
  | None => Throws
  | Some r =>
      match Http.status r with
      | Some c => if (c =? code)%Z then Matches else Differs
      | None => Differs
      end
  end.

(** ** Messages of the other commands *)

Definition tab : string := String "009"%char EmptyString.

(* lines 23-26 *)
Definition msg_register_intro : string :=
  nl ++ "      Registration is currently only possible after an invitation." ++
  nl ++ "      If you would to use Gendocs please send an email to ian@invacto.com" ++
  nl ++ "    ".

(* lines 33-35 and 57-59 *)
Definition msg_invitation_invalid : string :=
  nl ++ "          The given invitation is invalid or has already been used." ++
  nl ++ "        ".

(* lines 45-47 *)
Definition msg_email_used : string :=
  nl ++ "        That email address has already been used." ++
  nl ++ "      ".

(* lines 119-122 *)
Definition msg_no_config : string :=
  nl ++ "        Config file could not be found." ++
  nl ++ "        Use " ++ dquote ++ "gendocs init" ++ dquote ++
  " to generate the config file." ++
  nl ++ "      ".

(* lines 127-133 *)
Definition msg_no_token : string :=
  nl ++ "        We couldn't find a token to authenticate you." ++
  nl ++ "        Please provide a token in one of these ways:" ++
  nl ++ "          - in a gendocs-token file" ++
  nl ++ "          - in a gendocs.json file" ++
  nl ++ "          - as a argument to " ++ dquote ++ "gendocs publish [token]" ++
  dquote ++
  nl ++ "      ".

(* lines 142-155 *)
Definition msg_no_pages (name : string) : string :=
  nl ++ "        No pages were found." ++
  nl ++ "        Please add your pages to gendocs.json." ++
  nl ++
  nl ++ "        Example:" ++
  nl ++
  nl ++ "          {" ++
  nl ++ "            name: " ++ dquote ++ name ++ dquote ++ "," ++
  nl ++ "            token: " ++ dquote ++ "***********" ++ dquote ++ "," ++
  nl ++ "            pages: [" ++
  nl ++ "              " ++ dquote ++ "./my_page" ++ dquote ++ "," ++
  nl ++ "            ]" ++
  nl ++ "          }" ++
  nl ++ "      ".

(* lines 165-172 *)
Definition msg_no_domain : string :=
  nl ++ "        Succesfully updated your documentation!" ++
  nl ++ "        You don't seem to have selected a subdomain yet." ++
  nl ++ "        " ++
  nl ++ "        Please select a subdomain using the command: gendocs subdomain:set" ++
  nl ++ "        or" ++
  nl ++ "        Add your own custom domain using the command: gendocs domains:add" ++
  nl ++ "        ".

(* lines 178-181 *)
Definition msg_listing_head : string :=
  nl ++ "        Succesfully updated your documentation!" ++
  nl ++
  nl ++ "        Your site is available at:".

(* lines 190-192 *)
Definition msg_rate_limit : string :=
  nl ++
  "          You've hit the publishes/minute limit. Please wait a minute before you try again." ++
  nl ++ "        ".

(* lines 268-270 *)
Definition msg_site_available (full_subdomain : string) : string :=
  nl ++ "      Your site is now available at: " ++ full_subdomain ++
  nl ++ "    ".

(* lines 273-273 *)
Definition msg_taken (subdomain : string) : string :=
  "Subdomain " ++ dquote ++ subdomain ++ dquote ++ " has already been taken.".

Definition msg_registered : string := "Registration was succesful!".

Definition msg_unauthorized : string := "Unauthorized".

(** ** [handleCommandHandlerError] and the [try] of [run] *)

Definition error_lines (kv : string * Http.error_value) : list effect :=
  match snd kv with
  | Http.Text s => [Log Error s]
  | Http.Messages l => map (fun m => Log Error (fst kv ++ " " ++ m)) l
  end.

Definition is_401 (r : Http.reply) : bool :=
  match Http.status r with
  | Some c => (c =? 401)%Z
  | None => false
  end.

Definition handleCommandHandlerError (e : Http.error) : list effect :=
  match Http.response e with
  | None => [LogWith Error (Http.message e) e]
  | Some r =>
      if is_401 r then [Log Error msg_unauthorized]
      else
        match Http.data r with
        | Some d =>
            match Http.errors d with
            | Some errs => flat_map error_lines errs
            | None => [Log Error (Http.message e)]
            end
        | None => [Log Error (Http.message e)]
        end
  end.

(** [try { await Promise.resolve(_handlers[command](args)) }
     catch (e) { handleCommandHandlerError(e) }] *)
Definition run_handler (c : completion) : list effect :=
  match snd c with
  | Some e => (fst c ++ handleCommandHandlerError e)%list
  | None => fst c
  end.

(** ** [register] *)

Definition register (tmsg : string) (invitation : string)
    (validated : Http.answer unit) (email : string)
    (emailExists : Http.answer bool) (password : string)
    (created : Http.answer unit) : completion :=
  let t0 := [Log Info msg_register_intro; Ask PromptInvitation;
             Send (Repository.validateInvitation invitation)] in
  match validated with
  | Http.Rejected e =>
      match status_is 401 e with
      | Matches => ((t0 ++ [Log Info msg_invitation_invalid])%list, None)
      | Differs => (t0, Some e)
      | Throws => (t0, Some (type_error tmsg))
      end
  | Http.Resolved _ =>
      let t1 := (t0 ++ [Ask PromptEmail; Send (Repository.doesEmailExist email)])%list in
      match emailExists with
      | Http.Rejected e => (t1, Some e)
      | Http.Resolved true => ((t1 ++ [Log Info msg_email_used])%list, None)
      | Http.Resolved false =>
          let t2 := (t1 ++ [Ask PromptPassword;
                            Send (Repository.createUser invitation email password)])%list in
          match created with
          | Http.Resolved _ => ((t2 ++ [Log Info msg_registered])%list, None)
          | Http.Rejected e =>
              match status_is 401 e with
              | Matches => ((t2 ++ [Log Info msg_invitation_invalid])%list, None)
              | Differs => (t2, Some e)
              | Throws => (t2, Some (type_error tmsg))
              end
          end
      end
  end.

(** ** [publish] *)

(** What [repository.publish] resolves to: [doc.subdomain],
    [doc.full_subdomain] and the [full_url] of each of [domains]. *)
Record publish_result : Type := mkPublished {
  subdomain : option string;
  full_subdomain : string;
  domains : list string
}.

(** [domains.push({full_url: result.doc.full_subdomain})] when a subdomain is set. *)
Definition listed_domains (r : publish_result) : list string :=
  match subdomain r with
  | Some _ => (domains r ++ [full_subdomain r])%list
  | None => domains r
  end.

(** [domains.forEach(domain => { text += ... })] *)
Definition listing (r : publish_result) : string :=
  fold_left (fun text full_url => text ++ nl ++ tab ++ "   - " ++ full_url)
            (listed_domains r) msg_listing_head.

Definition no_domain_yet (r : publish_result) : bool :=
  match subdomain r, domains r with
  | None, [] => true
  | _, _ => false
  end.

Definition publish (tmsg : string) (config : option Config.config)
    (token : option string) (generatedPages : list Repository.page)
    (published : Http.answer publish_result) : completion :=
  match config with
  | None => ([Log Error msg_no_config], None)
  | Some c =>
      match token with
      | None => ([], Some (Http.mkError msg_no_token None))
      | Some tk =>
          match generatedPages with
          | [] => ([Log Info (msg_no_pages (Config.name c))], None)
          | _ :: _ =>
              let t := [Send (Repository.publish tk generatedPages
                                (Config.delete_token c))] in
              match published with
              | Http.Resolved r =>
                  if no_domain_yet r
                  then ((t ++ [Log Info msg_no_domain])%list, None)
                  else ((t ++ [Log Info (listing r ++ nl)])%list, None)
              | Http.Rejected e =>
                  match status_is 403 e with
                  | Matches => ((t ++ [Log Info msg_rate_limit])%list, None)
                  | Differs => (t, Some e)
                  | Throws => (t, Some (type_error tmsg))
                  end
              end
          end
      end
  end.

(** ** [updateSubdomain] *)

(** How a call of [updateSubdomain], which nobody awaits, ends: it
    returns, its promise is rejected with nobody to catch it, or the
    script of answers ran out at the prompt. *)
Inductive ending : Type :=
| Returned
| Unhandled (e : Http.error)
| AwaitingPrompt.

(** [script] gives, round by round, what the prompt answers ([None] for
    a null subdomain) and how [tryAddingSubdomain] settles, resolving to
    [doc.full_subdomain]. *)
Fixpoint updateSubdomain (tmsg token : string)
    (script : list (option string * Http.answer string)) : list effect * ending :=
  match script with
  | [] => ([Ask PromptSubdomain], AwaitingPrompt)
  | (None, _) :: _ => ([Ask PromptSubdomain], Returned)
  | (Some sd, settled) :: rest =>
      let t := [Ask PromptSubdomain; Send (Repository.tryAddingSubdomain token sd)] in
      match settled with
      | Http.Resolved full => ((t ++ [Log Info (msg_site_available full)])%list, Returned)
      | Http.Rejected e =>
          match status_is 400 e with
          | Matches =>
              let '(t', r) := updateSubdomain tmsg token rest in
              ((t ++ Log Info (msg_taken sd) :: t')%list, r)
          | Differs => (t, Returned)
          | Throws => (t, Unhandled (type_error tmsg))
          end
      end
  end.

(** [subdomain:set]: [const token = await authHandler.getToken();
    if (token == null) return; updateSubdomain(token)] *)
Definition subdomain_set (tmsg : string) (token : option string)
    (script : list (option string * Http.answer string)) : list effect * ending :=
  match token with
  | None => ([], Returned)
  | Some tk => updateSubdomain tmsg tk script
  end.

(** ** Reading traces and schedules *)

Definition is_tick (e : event) : bool :=
  match e with
  | Tick => true
  | _ => false
  end.

(** The line of the timeout callback. *)
Definition is_contact_line (l : log_line) : bool :=
  match l with
  | (Error, m) => m =? msg_contact
  | (Info, _) => false
  end.

(** The requests of a trace, in order. *)
Definition sends (t : list effect) : list Repository.request :=
  flat_map (fun x => match x with Send r => [r] | _ => [] end) t.

(** The prompts of a trace, in order. *)
Definition asks (t : list effect) : list prompt :=
  flat_map (fun x => match x with Ask p => [p] | _ => [] end) t.

(** A call of [logger.error]. *)
Definition is_error_log (x : effect) : bool :=
  match x with
  | Log Error _ => true
  | LogWith Error _ _ => true
  | _ => false
  end.

(** A property of [errors] that prints nothing: an empty array. *)
Definition prints_nothing (kv : string * Http.error_value) : bool :=
  match snd kv with
  | Http.Messages [] => true
  | _ => false
  end.

(** One round of [updateSubdomain] that finds the subdomain taken. *)
Definition taken_round (token : string) (sd : string) : list effect :=
  [Ask PromptSubdomain; Send (Repository.tryAddingSubdomain token sd);
   Log Info (msg_taken sd)].

(** A script of rounds in which the server rejects each subdomain tried
    with the error given, and the trace of these rounds when every one of
    them is found taken. *)
Definition rejected_rounds (tries : list (string * Http.error)) :
    list (option string * Http.answer string) :=
  map (fun p => (Some (fst p), Http.Rejected (snd p))) tries.

Definition taken_rounds (token : string) (tries : list (string * Http.error)) :
    list effect :=
  flat_map (fun p => taken_round token (fst p)) tries.

(** The list that [listing] appends, line by line. *)
Definition lines_of (l : list string) : string :=
  fold_right (fun full_url rest => nl ++ tab ++ "   - " ++ full_url ++ rest) "" l.

(** ** Example errors and answers *)

Definition example_errors : list (string * Http.error_value) :=
  [("email", Http.Messages ["is invalid"; "is too short"]);
   ("detail", Http.Text "Bad request")].

Definition example_reply : Http.reply :=
  Http.mkReply (Some 422%Z) (Some (Http.mkData (Some example_errors))).

Definition example_error : Http.error :=
  Http.mkError "Request failed with status code 422" (Some example_reply).

(** An error of the given status with no [data]. *)
Definition status_error (code : Z) : Http.error :=
  Http.mkError "Request failed" (Some (Http.mkReply (Some code) None)).

(** An error that is no HTTP answer: the server cannot be reached. *)
Definition network_error : Http.error :=
  Http.mkError "connect ECONNREFUSED 127.0.0.1:4000" None.

Definition example_config : Config.config :=
  Config.mkConfig "My docs" (Some "secret-token") None ["./intro"].

Definition example_published : publish_result :=
  mkPublished (Some "mydocs") "https://mydocs.gendocs.io"
              ["https://docs.example.com"].

(** * Properties *)

(** ** Strings and messages *)

Lemma prefix_append (a b : string) : prefix a (a ++ b) = true.
Proof.
  induction a as [|c a IH]; simpl.
  - now destruct b.
  - destruct (ascii_dec c c) as [_|N]; [exact IH | contradiction].
Qed.

Lemma append_assoc (a b c : string) : (a ++ b) ++ c = a ++ b ++ c.
Proof. induction a as [|x a IH]; simpl; [reflexivity | now rewrite IH]. Qed.

Lemma classify_generating (domain : string) :
  classify domain (Info, msg_generating) = None.
Proof. reflexivity. Qed.

Lemma classify_added (domain : string) :
  classify domain (Info, msg_added domain) = Some (Succeeded (site_url domain)).
Proof. unfold classify. now rewrite String.eqb_refl. Qed.

Lemma classify_malformed (domain : string) :
  classify domain (Info, msg_malformed domain) =
  Some (FailedTerminal (msg_malformed domain)).
Proof.
  unfold classify.
  replace (msg_malformed domain =? msg_added domain) with false by reflexivity.
  now rewrite String.eqb_refl.
Qed.

Lemma classify_contact (domain : string) :
  classify domain (Error, msg_contact) = Some TimedOut.
Proof. reflexivity. Qed.

Lemma classify_cert_error (domain : string) (c : option string) :
  classify domain (Error, msg_cert_error c) =
  Some (FailedTerminal (msg_cert_error c)).
Proof.
  unfold classify.
  replace (msg_cert_error c =? msg_contact) with false by reflexivity.
  unfold msg_cert_error. now rewrite prefix_append.
Qed.

Lemma outcomes_snoc (domain : string) (o : list log_line) (l : log_line) :
  outcomes domain (o ++ [l]) = (outcomes domain o ++ outcome_of domain l)%list.
Proof.
  unfold outcomes. rewrite flat_map_app. simpl. now rewrite app_nil_r.
Qed.


Lemma contains_context (c : string) : contains c (msg_cert_error (Some c)).
Proof.
  exists cert_error_head, (nl ++ "        "). reflexivity.
Qed.

(** ** Invariants of the running monitor *)

Local Arguments Z.mul : simpl never.
Local Arguments Z.add : simpl never.
Local Arguments Z.of_nat : simpl never.

Lemma existsb_eqb_In (id : nat) (l : list nat) :
  existsb (Nat.eqb id) l = true <-> In id l.
Proof.
  rewrite existsb_exists. split.
  - intros [x [Hin Heq]]. apply Nat.eqb_eq in Heq. now subst.
  - intros Hin. exists id. split; [exact Hin | apply Nat.eqb_refl].
Qed.

Lemma Forall_remove (P : nat -> Prop) (id : nat) (l : list nat) :
  Forall P l -> Forall P (remove Nat.eq_dec id l).
Proof.
  rewrite !Forall_forall. intros H x Hx.
  apply in_remove in Hx. apply H, Hx.
Qed.

(** The four ways the resumed callback can go. *)
Lemma resume_cases (domain : string) (r : result) (s : state) :
  (status r = "ok" /\
   interval_callback_resume domain r s =
   clearInterval (clearTimeout_if_set (logger_info (msg_added domain) s))) \/
  (status r = "error" /\ is_invalid_domain (context r) = true /\
   interval_callback_resume domain r s = logger_info (msg_malformed domain) s) \/
  (status r = "error" /\ is_invalid_domain (context r) = false /\
   interval_callback_resume domain r s =
   clearInterval (clearTimeout_if_set (logger_error (msg_cert_error (context r)) s))) \/
  (status r <> "ok" /\ status r <> "error" /\
   interval_callback_resume domain r s = s).
Proof.
  unfold interval_callback_resume.
  destruct (status r =? "ok") eqn:E1.
  { left. apply String.eqb_eq in E1. auto. }
  destruct (status r =? "pending") eqn:E2.
  { right; right; right. apply String.eqb_eq in E2. rewrite E2.
    repeat split; discriminate. }
  destruct (status r =? "error") eqn:E3.
  { apply String.eqb_eq in E3.
    destruct (is_invalid_domain (context r)).
    - right; left. auto.
    - right; right; left. auto. }
  right; right; right.
  apply String.eqb_neq in E1, E3. auto.
Qed.

Section Invariants.

Variable domain : string.

Lemma wf_start : wf domains_add_monitor.
Proof.
  constructor; simpl.
  - reflexivity.
  - now right.
  - now right.
  - discriminate.
  - lia.
  - constructor.
Qed.

Lemma wf_step (s s' : state) (e : event) :
  wf s -> step domain s e = Some s' -> wf s'.
Proof.
  intros [Ht Hi Hd Hb Hn Hf] Hs.
  destruct s as [ck iv tt tv n fl out]; simpl in *. subst tv.
  destruct e as [| | id r]; simpl in Hs.
  - (* Tick *)
    destruct iv as [tm|]; [|discriminate].
    destruct (due_first (due tm) tt) eqn:Hdue; [|discriminate].
    inv Hs.
    destruct Hi as [Hi|Hi]; [discriminate|]. inv Hi.
    destruct tt as [dl|]; [|specialize (Hb eq_refl); discriminate].
    destruct Hd as [Hd|Hd]; [discriminate|]. inv Hd.
    simpl in Hdue. apply Z.leb_le in Hdue.
    unfold POLL_INTERVAL_MS, DEADLINE_MS in *.
    constructor; simpl; auto.
    + right. unfold rearm, POLL_INTERVAL_MS; simpl. do 2 f_equal. lia.
    + intros; discriminate.
    + lia.
    + apply Forall_app. split.
      * eapply Forall_impl; [|exact Hf]. simpl. intros; lia.
      * constructor; [lia | constructor].
  - (* Deadline *)
    destruct tt as [tm|]; [|discriminate].
    destruct (due_first (due tm) iv) eqn:Hdue; [|discriminate].
    inv Hs.
    destruct Hd as [Hd|Hd]; [discriminate|]. inv Hd.
    constructor; simpl; auto.
  - (* Response *)
    destruct (existsb (Nat.eqb id) fl) eqn:Hin; [|discriminate].
    inv Hs. unfold settle; simpl.
    pose proof (Forall_remove _ id _ Hf) as Hf'.
    destruct (resume_cases domain r
                (mkState ck iv tt true n (remove Nat.eq_dec id fl) out))
      as [[_ E]|[[_ [_ E]]|[[_ [_ E]]|[_ [_ E]]]]];
      unfold settle, set_inflight in E |- *; simpl in E |- *; rewrite E;
      constructor; simpl; auto.
Qed.

Lemma wf_run (sch : list event) (s s' : state) :
  wf s -> run domain s sch = Some s' -> wf s'.
Proof.
  revert s. induction sch as [|e sch IH]; simpl; intros s Hw Hr.
  - now inv Hr.
  - destruct (step domain s e) as [s1|] eqn:Hs; [|discriminate].
    eapply IH; [|exact Hr]. eapply wf_step; eauto.
Qed.

Lemma run_app (a b : list event) (s : state) :
  run domain s (a ++ b) =
  match run domain s a with
  | Some s1 => run domain s1 b
  | None => None
  end.
Proof.
  revert s. induction a as [|e a IH]; simpl; intros s; [reflexivity|].
  destruct (step domain s e); [apply IH | reflexivity].
Qed.

End Invariants.

(** ** Facts about single transitions *)

Lemma resume_ok (domain : string) (c : option string) (s : state) :
  timeout s = true ->
  interval_callback_resume domain (mkResult "ok" c) s =
  mkState (clock s) None None true (issued s) (inflight s)
          (output s ++ [(Info, msg_added domain)]).
Proof.
  intros Ht. destruct s as [ck iv tt tv n fl out]; simpl in *. subst tv.
  reflexivity.
Qed.

Lemma not_invalid_domain_eqb (c : option string) :
  c <> Some "invalid_domain" -> is_invalid_domain c = false.
Proof.
  destruct c as [v|]; simpl; [|reflexivity].
  intros H. apply String.eqb_neq. congruence.
Qed.

Lemma resume_error (domain : string) (c : option string) (s : state) :
  timeout s = true ->
  c <> Some "invalid_domain" ->
  interval_callback_resume domain (mkResult "error" c) s =
  mkState (clock s) None None true (issued s) (inflight s)
          (output s ++ [(Error, msg_cert_error c)]).
Proof.
  intros Ht Hc. unfold interval_callback_resume. simpl.
  rewrite (not_invalid_domain_eqb c Hc).
  destruct s as [ck iv tt tv n fl out]; simpl in *. subst tv.
  reflexivity.
Qed.

Lemma resume_unknown (domain : string) (r : result) (s : state) :
  status r <> "ok" -> status r <> "error" ->
  interval_callback_resume domain r s = s.
Proof.
  intros H1 H3. unfold interval_callback_resume.
  apply String.eqb_neq in H1, H3. rewrite H1, H3.
  now destruct (status r =? "pending").
Qed.

Lemma resume_keeps_cleared (domain : string) (r : result) (s : state) :
  interval s = None -> timeout_timer s = None ->
  interval (interval_callback_resume domain r s) = None /\
  timeout_timer (interval_callback_resume domain r s) = None.
Proof.
  intros Hi Hd.
  destruct (resume_cases domain r s)
    as [[_ E]|[[_ [_ E]]|[[_ [_ E]]|[_ [_ E]]]]]; rewrite E;
    unfold clearTimeout_if_set; simpl; destruct (timeout s); simpl; auto.
Qed.

(** Once both timers are gone, only responses can still be dispatched. *)
Lemma run_after_cleared (domain : string) (sch : list event) (s s' : state) :
  interval s = None -> timeout_timer s = None ->
  run domain s sch = Some s' ->
  forallb is_response sch = true /\ interval s' = None /\ timeout_timer s' = None.
Proof.
  revert s. induction sch as [|e sch IH]; simpl; intros s Hi Hd Hr.
  - inv Hr. auto.
  - destruct e as [| | id r]; simpl in Hr.
    + rewrite Hi in Hr. discriminate.
    + rewrite Hd in Hr. discriminate.
    + destruct (existsb (Nat.eqb id) (inflight s)); [|discriminate].
      simpl. eapply IH; [| |exact Hr];
        apply resume_keeps_cleared; destruct s; assumption.
Qed.

Lemma step_response_Some (domain : string) (s : state) (id : nat) (r : result) :
  In id (inflight s) ->
  step domain s (Response id r) =
  Some (interval_callback_resume domain r (settle id s)).
Proof.
  intros Hin. simpl. apply existsb_eqb_In in Hin. now rewrite Hin.
Qed.

(** * The claims *)

(** C1, evaluated on the code. The first poll resolves to
    [{status: "error", context: "invalid_domain"}]. The handler prints the
    malformed-domain message and returns before the two [clear] calls:
    the interval timer stays armed for 1000ms, the timeout timer for
    20000ms, and the next tick is dispatched and makes a second remote call. *)
Theorem C1_invalid_domain_leaves_timers_armed (domain : string) :
  exists s s',
    run domain domains_add_monitor [Tick; Response 0 (failed "invalid_domain")] = Some s /\
    output s = [(Info, msg_generating); (Info, msg_malformed domain)] /\
    interval s = Some (mkTimer 1000 (Some 500)) /\
    timeout_timer s = Some (mkTimer 20000 None) /\
    step domain s Tick = Some s' /\
    inflight s' = [1%nat].
Proof.
  do 2 eexists. repeat split.
Qed.





(** C9. When the promise of a poll resolves with status [pending], the
    resumed callback returns at once: the state is the one before the
    response with the call settled. Nothing is logged, no outcome is
    reported, both timers are as they were, and a tick that could be
    dispatched before can still be dispatched. *)
Theorem C9_pending_no_change (domain : string) (s s' : state) (id : nat)
    (c : option string) :
  step domain s (Response id (mkResult "pending" c)) = Some s' ->
  s' = settle id s /\
  output s' = output s /\
  outcomes domain (output s') = outcomes domain (output s) /\
  interval s' = interval s /\
  timeout_timer s' = timeout_timer s /\
  clock s' = clock s /\
  (step domain s Tick <> None -> step domain s' Tick <> None) /\
  (step domain s Deadline <> None -> step domain s' Deadline <> None).
Proof.
  simpl. destruct (existsb (Nat.eqb id) (inflight s)); [|discriminate].
  intros H. inv H. unfold interval_callback_resume; simpl.
  destruct s as [ck iv tt tv n fl out]; simpl.
  repeat split; auto.
  - destruct iv as [tm|]; [|auto]. now destruct (due_first (due tm) tt).
  - destruct tt as [tm|]; [|auto]. now destruct (due_first (due tm) iv).
Qed.

Lemma C9_pending_no_change_witness :
  run example_domain domains_add_monitor [Tick] = Some example_after_tick /\
  step example_domain example_after_tick (Response 0 pending) =
    Some (settle 0 example_after_tick) /\
  settle 0 example_after_tick = settle 0 example_after_tick /\
  output (settle 0 example_after_tick) = output example_after_tick /\
  outcomes example_domain (output (settle 0 example_after_tick)) =
    outcomes example_domain (output example_after_tick) /\
  interval (settle 0 example_after_tick) = interval example_after_tick /\
  timeout_timer (settle 0 example_after_tick) = timeout_timer example_after_tick /\
  clock (settle 0 example_after_tick) = clock example_after_tick /\
  (step example_domain example_after_tick Tick <> None ->
   step example_domain (settle 0 example_after_tick) Tick <> None) /\
  (step example_domain example_after_tick Deadline <> None ->
   step example_domain (settle 0 example_after_tick) Deadline <> None).
Proof.
  split; [reflexivity|]. split; [reflexivity|].
  apply (C9_pending_no_change example_domain example_after_tick _ 0%nat None).
  reflexivity.
Defined.

(** C10. A response whose status is none of [ok], [pending] and [error]
    falls through the three tests of the callback: the resumed callback
    does nothing, and dispatching the response gives the very state that a
    [pending] response gives, so nothing is logged, no timer is cleared
    and polling goes on. *)
Theorem C10_unknown_status_like_pending (domain : string) (s : state) (id : nat)
    (st : string) (c c' : option string) :
  st <> "ok" -> st <> "pending" -> st <> "error" ->
  interval_callback_resume domain (mkResult st c) s = s /\
  step domain s (Response id (mkResult st c)) =
  step domain s (Response id (mkResult "pending" c')).
Proof.
  intros H1 H2 H3.
  assert (E : forall x, interval_callback_resume domain (mkResult st c) x = x)
    by (intros x; apply resume_unknown; assumption).
  split; [apply E|].
  simpl. destruct (existsb (Nat.eqb id) (inflight s)); [|reflexivity].
  now rewrite E.
Qed.

Lemma C10_unknown_status_like_pending_witness :
  "queued" <> "ok" /\ "queued" <> "pending" /\ "queued" <> "error" /\
  interval_callback_resume example_domain (mkResult "queued" None)
    example_after_tick = example_after_tick /\
  step example_domain example_after_tick (Response 0 (mkResult "queued" None)) =
  step example_domain example_after_tick (Response 0 (mkResult "pending" None)).
Proof.
  split; [discriminate|]. split; [discriminate|]. split; [discriminate|].
  apply (C10_unknown_status_like_pending example_domain); discriminate.
Defined.

(** ** Timers *)

Lemma step_deadline_clears (domain : string) (s s' : state) :
  wf s -> step domain s Deadline = Some s' ->
  clock s' = DEADLINE_MS /\ interval s' = None /\ timeout_timer s' = None /\
  output s' = (output s ++ [(Error, msg_contact)])%list /\
  inflight s' = inflight s /\ issued s' = issued s.
Proof.
  intros Hw Hs. simpl in Hs.
  destruct (timeout_timer s) as [tm|] eqn:Ht; [|discriminate].
  destruct (due_first (due tm) (interval s)); [|discriminate].
  inv Hs.
  destruct (wf_deadline s Hw) as [Hd|Hd]; rewrite Ht in Hd; [discriminate|].
  inv Hd. simpl. auto 10.
Qed.

Lemma step_tick_issues (domain : string) (s s' : state) :
  wf s -> step domain s Tick = Some s' ->
  clock s' = POLL_INTERVAL_MS * Z.of_nat (issued s') /\
  issued s' = S (issued s) /\
  interval s' = Some (mkTimer (clock s' + POLL_INTERVAL_MS) (Some POLL_INTERVAL_MS)) /\
  timeout_timer s' = timeout_timer s /\
  output s' = output s /\
  inflight s' = (inflight s ++ [issued s])%list.
Proof.
  intros Hw Hs. simpl in Hs.
  destruct (interval s) as [tm|] eqn:Hi; [|discriminate].
  destruct (due_first (due tm) (timeout_timer s)); [|discriminate].
  inv Hs.
  destruct (wf_interval s Hw) as [Hd|Hd]; rewrite Hi in Hd; [discriminate|].
  inv Hd. unfold rearm; simpl. repeat split.
  unfold POLL_INTERVAL_MS. lia.
Qed.

(** C8. The handler installs the interval timer with a period of 500ms
    and the timeout timer, single shot, for 20000ms, before anything else
    can run. From then on the k-th tick is dispatched at 500*k ms and
    re-arms the timer 500ms later, and the deadline is dispatched at
    20000ms, after which no timer is dispatched again. *)
Theorem C8_timer_constants (domain : string) (sch : list event) (s : state) :
  run domain domains_add_monitor sch = Some s ->
  POLL_INTERVAL_MS = 500 /\ DEADLINE_MS = 20000 /\
  interval domains_add_monitor = Some (mkTimer 500 (Some 500)) /\
  timeout_timer domains_add_monitor = Some (mkTimer 20000 None) /\
  (forall s', step domain s Tick = Some s' ->
     issued s' = S (issued s) /\
     clock s' = 500 * Z.of_nat (issued s') /\
     interval s' = Some (mkTimer (clock s' + 500) (Some 500))) /\
  (forall s', step domain s Deadline = Some s' ->
     clock s' = 20000 /\ timeout_timer s' = None /\
     forall rest s'', run domain s' rest = Some s'' ->
       forallb is_response rest = true).
Proof.
  intros Hr.
  pose proof (wf_run domain sch _ _ wf_start Hr) as Hw.
  repeat split; try reflexivity.
  - now apply (step_tick_issues domain s s').
  - now apply (step_tick_issues domain s s').
  - now apply (step_tick_issues domain s s').
  - now apply (step_deadline_clears domain s s').
  - now apply (step_deadline_clears domain s s').
  - intros rest s'' Hrest.
    destruct (step_deadline_clears domain s s' Hw H) as [_ [Hi [Ht _]]].
    now apply (run_after_cleared domain rest s' s'').
Qed.

Lemma C8_timer_constants_witness :
  run example_domain domains_add_monitor (poll_rounds pending 0 39) =
    Some example_last_round /\
  step example_domain example_last_round Tick <> None /\
  step example_domain example_last_round Deadline <> None /\
  POLL_INTERVAL_MS = 500 /\ DEADLINE_MS = 20000 /\
  interval domains_add_monitor = Some (mkTimer 500 (Some 500)) /\
  timeout_timer domains_add_monitor = Some (mkTimer 20000 None) /\
  (forall s', step example_domain example_last_round Tick = Some s' ->
     issued s' = S (issued example_last_round) /\
     clock s' = 500 * Z.of_nat (issued s') /\
     interval s' = Some (mkTimer (clock s' + 500) (Some 500))) /\
  (forall s', step example_domain example_last_round Deadline = Some s' ->
     clock s' = 20000 /\ timeout_timer s' = None /\
     forall rest s'', run example_domain s' rest = Some s'' ->
       forallb is_response rest = true).
Proof.
  split; [vm_compute; reflexivity|].
  split; [discriminate|]. split; [discriminate|].
  apply (C8_timer_constants example_domain (poll_rounds pending 0 39)).
  vm_compute; reflexivity.
Defined.

(** ** Calls in flight *)

Lemma resume_inflight (domain : string) (r : result) (s : state) :
  inflight (interval_callback_resume domain r s) = inflight s /\
  issued (interval_callback_resume domain r s) = issued s /\
  clock (interval_callback_resume domain r s) = clock s.
Proof.
  destruct (resume_cases domain r s)
    as [[_ E]|[[_ [_ E]]|[[_ [_ E]]|[_ [_ E]]]]]; rewrite E;
    unfold clearTimeout_if_set; simpl; destruct (timeout s); simpl; auto.
Qed.

Lemma in_step_response (id : nat) (s : state) :
  in_step true s -> existsb (Nat.eqb id) (inflight s) = true ->
  inflight (settle id s) = [].
Proof.
  intros [x Hx] Hin. simpl. rewrite Hx in *. simpl in *.
  rewrite orb_false_r in Hin. apply Nat.eqb_eq in Hin. subst x.
  now destruct (Nat.eq_dec id id).
Qed.

Lemma sequential_in_step (domain : string) (sch : list event) :
  forall (busy : bool) (s s' : state),
    sequential busy sch = true ->
    in_step busy s ->
    run domain s sch = Some s' ->
    (List.length (inflight s') <= 1)%nat.
Proof.
  induction sch as [|e sch IH]; simpl; intros busy s s' Hq Hb Hr.
  - inv Hr. destruct busy; simpl in Hb.
    + destruct Hb as [x Hx]. rewrite Hx. simpl. lia.
    + rewrite Hb. simpl. lia.
  - destruct (step domain s e) as [s1|] eqn:Hs; [|discriminate].
    destruct e as [| | id r]; apply andb_prop in Hq; destruct Hq as [Hq1 Hq2].
    + destruct busy; [discriminate|]. simpl in Hb.
      apply (IH true s1 s' Hq2); [|exact Hr].
      simpl in Hs. destruct (interval s) as [tm|]; [|discriminate].
      destruct (due_first (due tm) (timeout_timer s)); [|discriminate].
      inv Hs. simpl. rewrite Hb. now exists (issued s).
    + destruct busy; [discriminate|]. simpl in Hb.
      apply (IH false s1 s' Hq2); [|exact Hr].
      simpl in Hs. destruct (timeout_timer s) as [tm|]; [|discriminate].
      destruct (due_first (due tm) (interval s)); [|discriminate].
      inv Hs. simpl. exact Hb.
    + destruct busy; [|discriminate].
      apply (IH false s1 s' Hq2); [|exact Hr].
      simpl in Hs.
      destruct (existsb (Nat.eqb id) (inflight s)) eqn:Hin; [|discriminate].
      inv Hs. simpl.
      destruct (resume_inflight domain r (settle id s)) as [E _].
      rewrite E. now apply in_step_response.
Qed.

(** C3, as the code has it. A tick that the runtime dispatches always
    makes a new remote call, whatever is still in flight: the call is
    appended to the calls in flight, it is none of them, and their number
    grows by one. Only in a schedule where every response arrives before
    the next timer fires is at most one call in flight. *)
Theorem C3_every_tick_issues_a_call (domain : string) (sch : list event)
    (s : state) :
  run domain domains_add_monitor sch = Some s ->
  (forall tm, interval s = Some tm ->
     due_first (due tm) (timeout_timer s) = true ->
     exists s',
       step domain s Tick = Some s' /\
       inflight s' = (inflight s ++ [issued s])%list /\
       ~ In (issued s) (inflight s) /\
       List.length (inflight s') = S (List.length (inflight s))) /\
  (sequential false sch = true -> (List.length (inflight s) <= 1)%nat).
Proof.
  intros Hr.
  pose proof (wf_run domain sch _ _ wf_start Hr) as Hw.
  split.
  - intros tm Hi Hdue. eexists. split.
    + simpl. rewrite Hi, Hdue. reflexivity.
    + simpl. repeat split.
      * intros Hin. pose proof (wf_fresh s Hw) as Hf.
        rewrite Forall_forall in Hf. apply Hf in Hin. lia.
      * rewrite length_app. simpl. lia.
  - intros Hq.
    apply (sequential_in_step domain sch false domains_add_monitor s Hq);
      [reflexivity | exact Hr].
Qed.

Lemma C3_every_tick_issues_a_call_witness :
  run example_domain domains_add_monitor [Tick] = Some example_after_tick /\
  (forall tm, interval example_after_tick = Some tm ->
     due_first (due tm) (timeout_timer example_after_tick) = true ->
     exists s',
       step example_domain example_after_tick Tick = Some s' /\
       inflight s' =
         (inflight example_after_tick ++ [issued example_after_tick])%list /\
       ~ In (issued example_after_tick) (inflight example_after_tick) /\
       List.length (inflight s') = S (List.length (inflight example_after_tick))) /\
  (sequential false [Tick] = true ->
   (List.length (inflight example_after_tick) <= 1)%nat).
Proof.
  split; [reflexivity|].
  apply (C3_every_tick_issues_a_call example_domain [Tick]).
  reflexivity.
Defined.

(** C3 as stated fails: two ticks without a response in between are a
    schedule of the runtime, and leave two calls in flight. *)
Lemma C3_counterexample_overlapping_calls :
  exists s,
    run example_domain domains_add_monitor [Tick; Tick] = Some s /\
    inflight s = [0%nat; 1%nat] /\
    ~ (List.length (inflight s) <= 1)%nat.
Proof.
  eexists. split; [reflexivity|]. split; [reflexivity|]. simpl. lia.
Qed.

(** ** Terminal transitions *)

Lemma clears_timers_step (domain : string) (s s' : state) (e : event) :
  wf s -> clears_timers e = true -> step domain s e = Some s' ->
  interval s' = None /\ timeout_timer s' = None.
Proof.
  intros Hw He Hs. destruct e as [| | id r]; simpl in He.
  - discriminate.
  - destruct (step_deadline_clears domain s s' Hw Hs) as [_ [Hi [Ht _]]]. auto.
  - simpl in Hs.
    destruct (existsb (Nat.eqb id) (inflight s)); [|discriminate]. inv Hs.
    assert (Ht : timeout (settle id s) = true) by (simpl; apply Hw).
    destruct (resume_cases domain r (settle id s))
      as [[_ E]|[[E1 [E2 _]]|[[_ [_ E]]|[E1 [E3 _]]]]].
    + rewrite E. unfold clearTimeout_if_set. simpl.
      destruct s; simpl in *. rewrite Ht. auto.
    + rewrite E1, E2 in He. discriminate.
    + rewrite E. unfold clearTimeout_if_set. simpl.
      destruct s; simpl in *. rewrite Ht. auto.
    + apply String.eqb_neq in E1, E3. rewrite E1, E3 in He. discriminate.
Qed.

Lemma run_split (domain : string) (pre : list event) (e : event)
    (post : list event) (s0 s : state) :
  run domain s0 (pre ++ e :: post) = Some s ->
  exists s1 s2,
    run domain s0 pre = Some s1 /\ step domain s1 e = Some s2 /\
    run domain s2 post = Some s.
Proof.
  rewrite run_app. destruct (run domain s0 pre) as [s1|]; [|discriminate].
  simpl. destruct (step domain s1 e) as [s2|] eqn:Hs; [|discriminate].
  intros Hr. now exists s1, s2.
Qed.

(** C4, as the code has it. The handler keeps no monitor state and its
    callbacks test none: the timeout callback logs whenever it is called,
    the interval callback makes a call whenever it is called. What stops
    them is cancellation alone. After the deadline, a response [ok] or a
    response [error] with a context other than [invalid_domain], both
    timers are cleared or spent, they stay so, and the runtime dispatches
    no tick and no deadline any more: only responses of calls still in
    flight can follow. *)
Theorem C4_cancelled_timers_never_fire (domain : string) (pre : list event)
    (e : event) (post : list event) (s : state) :
  clears_timers e = true ->
  run domain domains_add_monitor (pre ++ e :: post) = Some s ->
  forallb is_response post = true /\
  interval s = None /\ timeout_timer s = None /\
  step domain s Tick = None /\ step domain s Deadline = None /\
  (forall x, output (timeout_callback x) = (output x ++ [(Error, msg_contact)])%list) /\
  (forall x, inflight (interval_callback x) = (inflight x ++ [issued x])%list).
Proof.
  intros He Hr.
  destruct (run_split domain pre e post _ _ Hr) as [s1 [s2 [H1 [H2 H3]]]].
  pose proof (wf_run domain pre _ _ wf_start H1) as Hw.
  destruct (clears_timers_step domain s1 s2 e Hw He H2) as [Hi Ht].
  destruct (run_after_cleared domain post s2 s Hi Ht H3) as [Hp [Hi' Ht']].
  repeat split; auto.
  - simpl. now rewrite Hi'.
  - simpl. now rewrite Ht'.
Qed.

Lemma C4_cancelled_timers_never_fire_witness :
  clears_timers (Response 0 ok) = true /\
  run example_domain domains_add_monitor
      ([Tick; Tick] ++ Response 0 ok :: [Response 1 pending]) =
    Some example_succeeded /\
  forallb is_response [Response 1 pending] = true /\
  interval example_succeeded = None /\ timeout_timer example_succeeded = None /\
  step example_domain example_succeeded Tick = None /\
  step example_domain example_succeeded Deadline = None /\
  (forall x, output (timeout_callback x) = (output x ++ [(Error, msg_contact)])%list) /\
  (forall x, inflight (interval_callback x) = (inflight x ++ [issued x])%list).
Proof.
  split; [reflexivity|]. split; [reflexivity|].
  apply (C4_cancelled_timers_never_fire example_domain [Tick; Tick]
           (Response 0 ok) [Response 1 pending]); reflexivity.
Defined.

(** C4 as stated fails: no callback checks a state. In the state reached
    after a response [ok], where [Succeeded] has been reported, the
    timeout callback, were it called late, reports [TimedOut] as well,
    and the interval callback makes another remote call. *)
Lemma C4_counterexample_late_timer :
  exists s,
    run example_domain domains_add_monitor [Tick; Response 0 ok] = Some s /\
    outcomes example_domain (output s) = [Succeeded (site_url example_domain)] /\
    outcomes example_domain (output (timeout_callback s)) =
      [Succeeded (site_url example_domain); TimedOut] /\
    inflight s = [] /\
    inflight (interval_callback s) = [1%nat].
Proof.
  eexists. repeat split.
Qed.

(** ** Exactly one outcome *)

Section SingleOutcome.

Variable domain : string.

Lemma terminated_stuck (s : state) (e : event) :
  terminated domain s -> step domain s e = None.
Proof.
  intros [_ [Hi [Ht Hf]]]. destruct e; simpl.
  - now rewrite Hi.
  - now rewrite Ht.
  - now rewrite Hf.
Qed.

Lemma terminated_run (s s' : state) (sch : list event) :
  terminated domain s -> run domain s sch = Some s' -> s' = s.
Proof.
  intros Ht. destruct sch as [|e sch]; simpl.
  - congruence.
  - now rewrite (terminated_stuck s e Ht).
Qed.

Lemma resume_ok_status (r : result) (s : state) :
  status r = "ok" -> timeout s = true ->
  interval_callback_resume domain r s =
  mkState (clock s) None None true (issued s) (inflight s)
          (output s ++ [(Info, msg_added domain)]).
Proof.
  destruct r as [st c]; simpl. intros -> Ht. now apply resume_ok.
Qed.

Lemma resume_error_status (r : result) (s : state) :
  status r = "error" -> is_invalid_domain (context r) = false ->
  timeout s = true ->
  interval_callback_resume domain r s =
  mkState (clock s) None None true (issued s) (inflight s)
          (output s ++ [(Error, msg_cert_error (context r))]).
Proof.
  destruct r as [st c]; simpl. intros -> Hc Ht. apply resume_error; auto.
  intros ->. discriminate.
Qed.

Lemma sequential_single_outcome (sch : list event) :
  forall (busy : bool) (s s' : state),
    wf s -> in_step busy s -> running domain s ->
    sequential busy sch = true ->
    forallb not_invalid_domain sch = true ->
    run domain s sch = Some s' ->
    if existsb clears_timers sch then terminated domain s' else running domain s'.
Proof.
  induction sch as [|e sch IH]; simpl; intros busy s s' Hw Hb Hrun Hq Hn Hr.
  - now inv Hr.
  - destruct (step domain s e) as [s1|] eqn:Hs; [|discriminate].
    pose proof (wf_step domain s s1 e Hw Hs) as Hw1.
    apply andb_prop in Hn. destruct Hn as [Hn1 Hn2].
    destruct Hrun as [Ho [Hi Ht]].
    destruct e as [| | id r]; apply andb_prop in Hq; destruct Hq as [Hq1 Hq2].
    + destruct busy; [discriminate|]. simpl in Hb.
      destruct (step_tick_issues domain s s1 Hw Hs)
        as [_ [_ [Ei [Et [Eo Ef]]]]].
      apply (IH true s1 s' Hw1); auto.
      * simpl. rewrite Ef, Hb. now exists (issued s).
      * split; [now rewrite Eo|]. split; [now rewrite Ei | now rewrite Et].
    + destruct busy; [discriminate|]. simpl in Hb.
      destruct (step_deadline_clears domain s s1 Hw Hs)
        as [_ [Ei [Et [Eo [Ef _]]]]].
      assert (T : terminated domain s1).
      { split; [|rewrite Ef; auto].
        exists TimedOut. rewrite Eo, outcomes_snoc, Ho. reflexivity. }
      simpl. now rewrite (terminated_run s1 s' sch T Hr).
    + destruct busy; [|discriminate].
      simpl in Hs.
      destruct (existsb (Nat.eqb id) (inflight s)) eqn:Hin; [|discriminate].
      inv Hs.
      pose proof (in_step_response id s Hb Hin) as Hf.
      assert (Htv : timeout (settle id s) = true) by (simpl; apply Hw).
      destruct (resume_cases domain r (settle id s))
        as [[E1 _]|[[E1 [E2 _]]|[[E1 [E2 _]]|[E1 [E3 E]]]]].
      * rewrite (resume_ok_status r _ E1 Htv) in Hr.
        assert (T : terminated domain
                      (mkState (clock (settle id s)) None None true
                         (issued (settle id s)) (inflight (settle id s))
                         (output (settle id s) ++ [(Info, msg_added domain)]))).
        { split; [|simpl; auto].
          exists (Succeeded (site_url domain)). simpl.
          rewrite outcomes_snoc, Ho. unfold outcome_of.
          now rewrite classify_added. }
        simpl. rewrite E1. simpl.
        now rewrite (terminated_run _ s' sch T Hr).
      * simpl in Hn1. rewrite E1, E2 in Hn1. discriminate.
      * rewrite (resume_error_status r _ E1 E2 Htv) in Hr.
        assert (T : terminated domain
                      (mkState (clock (settle id s)) None None true
                         (issued (settle id s)) (inflight (settle id s))
                         (output (settle id s) ++
                          [(Error, msg_cert_error (context r))]))).
        { split; [|simpl; auto].
          exists (FailedTerminal (msg_cert_error (context r))). simpl.
          rewrite outcomes_snoc, Ho. unfold outcome_of.
          now rewrite classify_cert_error. }
        simpl. rewrite E1, E2. simpl.
        now rewrite (terminated_run _ s' sch T Hr).
      * rewrite E in Hr, Hw1.
        apply String.eqb_neq in E1, E3. simpl. rewrite E1, E3. simpl.
        apply (IH false (settle id s) s' Hw1); auto.
        split; [exact Ho|]. split; simpl; assumption.
Qed.

End SingleOutcome.

(** C2, as the code has it. Take any schedule in which a timer fires
    only while no call is in flight (each response arrives before the
    next tick and before the deadline) and in which no response is
    [{status: "error", context: "invalid_domain"}]. Then the log holds at
    most one terminal outcome. It holds none, and both timers are armed,
    as long as neither the deadline nor a response [ok] or [error] has
    occurred. Once one of them has occurred it holds exactly one, both
    timers are cleared or spent, no call is in flight and the runtime can
    dispatch no event at all, so no second outcome is ever reported. *)
Theorem C2_sequential_single_outcome (domain : string) (sch : list event)
    (s : state) :
  sequential false sch = true ->
  forallb not_invalid_domain sch = true ->
  run domain domains_add_monitor sch = Some s ->
  (existsb clears_timers sch = false /\
   outcomes domain (output s) = [] /\
   interval s <> None /\ timeout_timer s <> None) \/
  (existsb clears_timers sch = true /\
   (exists o, outcomes domain (output s) = [o]) /\
   interval s = None /\ timeout_timer s = None /\ inflight s = [] /\
   forall e, step domain s e = None).
Proof.
  intros Hq Hn Hr.
  assert (W0 : running domain domains_add_monitor)
    by (repeat split; discriminate).
  pose proof (sequential_single_outcome domain sch false domains_add_monitor s
                wf_start eq_refl W0 Hq Hn Hr) as H.
  destruct (existsb clears_timers sch).
  - right. destruct H as [Ho [Hi [Ht Hf]]]. repeat split; auto.
    intros e. apply terminated_stuck. repeat split; auto.
  - left. destruct H as [Ho [Hi Ht]]. auto.
Qed.

Lemma C2_sequential_single_outcome_witness :
  sequential false [Tick; Response 0 pending; Tick; Response 1 ok] = true /\
  forallb not_invalid_domain [Tick; Response 0 pending; Tick; Response 1 ok] = true /\
  run example_domain domains_add_monitor
      [Tick; Response 0 pending; Tick; Response 1 ok] = Some example_succeeded /\
  ((existsb clears_timers [Tick; Response 0 pending; Tick; Response 1 ok] = false /\
    outcomes example_domain (output example_succeeded) = [] /\
    interval example_succeeded <> None /\ timeout_timer example_succeeded <> None) \/
   (existsb clears_timers [Tick; Response 0 pending; Tick; Response 1 ok] = true /\
    (exists o, outcomes example_domain (output example_succeeded) = [o]) /\
    interval example_succeeded = None /\ timeout_timer example_succeeded = None /\
    inflight example_succeeded = [] /\
    forall e, step example_domain example_succeeded e = None)).
Proof.
  split; [reflexivity|]. split; [reflexivity|]. split; [reflexivity|].
  apply (C2_sequential_single_outcome example_domain
           [Tick; Response 0 pending; Tick; Response 1 ok]); reflexivity.
Defined.

(** C2 as stated fails: the second tick fires before the first response
    arrives, both calls resolve with [ok], and success is reported twice. *)
Lemma C2_counterexample_two_outcomes :
  exists s,
    run example_domain domains_add_monitor
        [Tick; Tick; Response 0 ok; Response 1 ok] = Some s /\
    outcomes example_domain (output s) =
      [Succeeded (site_url example_domain); Succeeded (site_url example_domain)].
Proof.
  eexists. split; reflexivity.
Qed.

(** ** Every response pending *)

Section AllPending.

Variable domain : string.





End AllPending.



(** * The other commands: properties *)

(** ** The repository *)


(** X2. The four lookups that put their argument at the end of the path
    can be told apart by their URL: different domains, invitations,
    emails or tokens give different URLs. *)
Theorem repository_lookup_urls_injective :
  (forall d d', Repository.url (Repository.domainStatus d) =
                Repository.url (Repository.domainStatus d') -> d = d') /\
  (forall i i', Repository.url (Repository.validateInvitation i) =
                Repository.url (Repository.validateInvitation i') -> i = i') /\
  (forall e e', Repository.url (Repository.doesEmailExist e) =
                Repository.url (Repository.doesEmailExist e') -> e = e') /\
  (forall t t', Repository.url (Repository.singleDocument t) =
                Repository.url (Repository.singleDocument t') -> t = t').
Proof.
  repeat split; intros a b H; simpl in H; congruence.
Qed.

Lemma repository_lookup_urls_injective_witness :
  Repository.url (Repository.domainStatus example_domain) =
  Repository.url (Repository.domainStatus "docs.example.com") /\
  example_domain = "docs.example.com".
Proof.
  split; [reflexivity|].
  apply (proj1 repository_lookup_urls_injective). reflexivity.
Defined.

(** X3. A token is spliced into the path as it is. The document of a
    token that ends in [/domains] or [/subdomain] has the URL of the
    domains or subdomain endpoint of the token before the slash. *)
Theorem repository_token_not_escaped (token d sd : string) :
  Repository.url (Repository.singleDocument (token ++ "/domains")) =
  Repository.url (Repository.addDomain token d) /\
  Repository.url (Repository.deleteDocument (token ++ "/subdomain")) =
  Repository.url (Repository.tryAddingSubdomain token sd).
Proof.
  split; reflexivity.
Qed.

(** ** Error reporting *)

Lemma error_lines_are_errors (kv : string * Http.error_value) :
  forallb is_error_log (error_lines kv) = true.
Proof.
  destruct kv as [k [s|l]]; unfold error_lines; simpl; [reflexivity|].
  induction l as [|m l IH]; simpl; [reflexivity | exact IH].
Qed.

Lemma error_lines_nil (kv : string * Http.error_value) :
  error_lines kv = [] <-> prints_nothing kv = true.
Proof.
  destruct kv as [k [s|[|m l]]]; unfold error_lines, prints_nothing; simpl;
    split; intros H; try reflexivity; discriminate.
Qed.

Lemma flat_map_error_lines_nil (errs : list (string * Http.error_value)) :
  flat_map error_lines errs = [] <-> forallb prints_nothing errs = true.
Proof.
  induction errs as [|kv errs IH]; simpl; [tauto|].
  rewrite andb_true_iff, <- IH, <- error_lines_nil.
  split.
  - intros H. apply app_eq_nil in H. exact H.
  - intros [H1 H2]. now rewrite H1, H2.
Qed.

(** X4. Whatever the error, [handleCommandHandlerError] only calls
    [logger.error]: it logs nothing at another level, prompts for nothing
    and sends nothing. *)
Theorem handle_error_only_logs_errors (e : Http.error) :
  forallb is_error_log (handleCommandHandlerError e) = true.
Proof.
  unfold handleCommandHandlerError.
  destruct (Http.response e) as [r|]; [|reflexivity].
  destruct (is_401 r); [reflexivity|].
  destruct (Http.data r) as [d|]; [|reflexivity].
  destruct (Http.errors d) as [errs|]; [|reflexivity].
  induction errs as [|kv errs IH]; simpl; [reflexivity|].
  rewrite forallb_app, IH, error_lines_are_errors. reflexivity.
Qed.

(** X5. [handleCommandHandlerError] reports an error with complete
    silence in exactly one case: the error has a response whose status is
    not 401 and whose [data.errors] is present with nothing but empty
    arrays in it (the empty object included). *)
Theorem handle_error_silent_iff (e : Http.error) :
  handleCommandHandlerError e = [] <->
  exists r d errs,
    Http.response e = Some r /\ is_401 r = false /\
    Http.data r = Some d /\ Http.errors d = Some errs /\
    forallb prints_nothing errs = true.
Proof.
  unfold handleCommandHandlerError. split.
  - destruct (Http.response e) as [r|]; [|discriminate].
    destruct (is_401 r) eqn:H401; [discriminate|].
    destruct (Http.data r) as [d|] eqn:Hd; [|discriminate].
    destruct (Http.errors d) as [errs|] eqn:He; [|discriminate].
    intros H. exists r, d, errs. repeat split; auto.
    now apply flat_map_error_lines_nil.
  - intros [r [d [errs [Hr [H401 [Hd [He Hn]]]]]]].
    rewrite Hr, H401, Hd, He. now apply flat_map_error_lines_nil.
Qed.

(** X6. When the response is not a 401 and carries [data.errors], every
    string value is logged as it is, every message of an array value is
    logged as [key message], and the number of lines logged is the number
    of string values plus the lengths of the arrays. *)
Theorem handle_error_prints_each_message (e : Http.error) (r : Http.reply)
    (d : Http.response_data) (errs : list (string * Http.error_value)) :
  Http.response e = Some r -> is_401 r = false ->
  Http.data r = Some d -> Http.errors d = Some errs ->
  (forall k s, In (k, Http.Text s) errs ->
     In (Log Error s) (handleCommandHandlerError e)) /\
  (forall k l m, In (k, Http.Messages l) errs -> In m l ->
     In (Log Error (k ++ " " ++ m)) (handleCommandHandlerError e)) /\
  List.length (handleCommandHandlerError e) =
    list_sum (map (fun kv => match snd kv with
                             | Http.Text _ => 1%nat
                             | Http.Messages l => List.length l
                             end) errs).
Proof.
  intros Hr H401 Hd He. unfold handleCommandHandlerError.
  rewrite Hr, H401, Hd, He. repeat split.
  - intros k s Hin. apply in_flat_map. exists (k, Http.Text s).
    split; [exact Hin | simpl; auto].
  - intros k l m Hin Hm. apply in_flat_map. exists (k, Http.Messages l).
    split; [exact Hin|]. unfold error_lines; simpl.
    apply (in_map (fun m0 => Log Error (k ++ " " ++ m0))), Hm.
  - induction errs as [|[k [s|l]] errs IH] in |- *; simpl; [reflexivity| |].
    + now rewrite IH.
    + rewrite length_app, IH. unfold error_lines; simpl.
      now rewrite length_map.
Qed.

Lemma handle_error_prints_each_message_witness :
  Http.response example_error = Some example_reply /\
  is_401 example_reply = false /\
  Http.data example_reply = Some (Http.mkData (Some example_errors)) /\
  Http.errors (Http.mkData (Some example_errors)) = Some example_errors /\
  handleCommandHandlerError example_error =
    [Log Error "email is invalid"; Log Error "email is too short";
     Log Error "Bad request"] /\
  (forall k s, In (k, Http.Text s) example_errors ->
     In (Log Error s) (handleCommandHandlerError example_error)) /\
  (forall k l m, In (k, Http.Messages l) example_errors -> In m l ->
     In (Log Error (k ++ " " ++ m)) (handleCommandHandlerError example_error)) /\
  List.length (handleCommandHandlerError example_error) =
    list_sum (map (fun kv => match snd kv with
                             | Http.Text _ => 1%nat
                             | Http.Messages l => List.length l
                             end) example_errors).
Proof.
  do 5 (split; [reflexivity|]).
  apply (handle_error_prints_each_message example_error example_reply
           (Http.mkData (Some example_errors)) example_errors); reflexivity.
Defined.

(** ** [publish] *)


Lemma publish_sends (tmsg : string) (config : option Config.config)
    (token : option string) (generatedPages : list Repository.page)
    (published : Http.answer publish_result) :
  sends (fst (publish tmsg config token generatedPages published)) =
  match config, token, generatedPages with
  | Some c, Some tk, _ :: _ =>
      [Repository.publish tk generatedPages (Config.delete_token c)]
  | _, _, _ => []
  end.
Proof.
  unfold publish.
  destruct config as [c|]; [|reflexivity].
  destruct token as [tk|]; [|reflexivity].
  destruct generatedPages as [|p ps]; [reflexivity|].
  destruct published as [r|e].
  - now destruct (no_domain_yet r).
  - now destruct (status_is 403 e).
Qed.

(** X7. [publish] sends nothing to the server when the config file, the
    token or the pages are missing, and otherwise sends exactly one
    request, whatever the server then answers. *)
Theorem publish_sends_once_or_never (tmsg : string)
    (config : option Config.config) (token : option string)
    (generatedPages : list Repository.page)
    (published : Http.answer publish_result) :
  (config = None \/ token = None \/ generatedPages = [] ->
   sends (fst (publish tmsg config token generatedPages published)) = []) /\
  (config <> None -> token <> None -> generatedPages <> [] ->
   List.length (sends (fst (publish tmsg config token generatedPages published))) = 1%nat).
Proof.
  rewrite publish_sends. split.
  - intros [H|[H|H]]; subst.
    + reflexivity.
    + now destruct config.
    + destruct config; [destruct token|]; reflexivity.
  - intros Hc Ht Hp.
    destruct config; [|contradiction]. destruct token; [|contradiction].
    destruct generatedPages; [contradiction | reflexivity].
Qed.

Lemma publish_sends_once_or_never_witness :
  (Some example_config <> None /\ Some "tk" <> None /\ ["<h1>Intro</h1>"] <> []) /\
  List.length (sends (fst (publish "TypeError" (Some example_config) (Some "tk")
                             ["<h1>Intro</h1>"] (Http.Rejected network_error)))) = 1%nat /\
  (@None Config.config = None \/ Some "tk" = None \/ ["<h1>Intro</h1>"] = []) /\
  sends (fst (publish "TypeError" None (Some "tk") ["<h1>Intro</h1>"]
                (Http.Resolved example_published))) = [].
Proof.
  split; [repeat split; discriminate|]. split.
  - apply (proj2 (publish_sends_once_or_never "TypeError" (Some example_config)
                    (Some "tk") ["<h1>Intro</h1>"] (Http.Rejected network_error)));
      discriminate.
  - split; [now left|].
    apply (proj1 (publish_sends_once_or_never "TypeError" None
                    (Some "tk") ["<h1>Intro</h1>"] (Http.Resolved example_published))).
    now left.
Defined.



Lemma fold_listing (l : list string) (acc : string) :
  fold_left (fun text full_url => text ++ nl ++ tab ++ "   - " ++ full_url) l acc =
  acc ++ lines_of l.
Proof.
  revert acc. induction l as [|u l IH]; simpl; intros acc.
  - induction acc as [|c acc IHa]; simpl; [reflexivity | now rewrite <- IHa].
  - now rewrite IH, append_assoc.
Qed.

Lemma lines_of_contains (l : list string) (u : string) :
  In u l -> contains (nl ++ tab ++ "   - " ++ u) (lines_of l).
Proof.
  induction l as [|v l IH]; simpl; [contradiction|].
  intros [H|H].
  - subst v. now exists "", (lines_of l).
  - destruct (IH H) as [pre [post E]].
    exists (nl ++ tab ++ "   - " ++ v ++ pre), post.
    rewrite E. simpl. now rewrite append_assoc.
Qed.

(** X9. After a successful [publish] with a subdomain or a custom domain,
    exactly one line is logged: the heading followed by one
    [\n\t   - url] entry per custom domain, in the order of the server,
    then the subdomain's if one is set, then a newline. Every one of
    these URLs occurs in the line. *)
Theorem publish_lists_every_domain (tmsg : string) (c : Config.config)
    (tk : string) (p : Repository.page) (ps : list Repository.page)
    (r : publish_result) (u : string) :
  no_domain_yet r = false ->
  In u (listed_domains r) ->
  publish tmsg (Some c) (Some tk) (p :: ps) (Http.Resolved r) =
    ([Send (Repository.publish tk (p :: ps) (Config.delete_token c));
      Log Info (msg_listing_head ++ lines_of (listed_domains r) ++ nl)], None) /\
  contains (nl ++ tab ++ "   - " ++ u)
           (msg_listing_head ++ lines_of (listed_domains r) ++ nl).
Proof.
  intros Hn Hu. split.
  - unfold publish. rewrite Hn. unfold listing.
    now rewrite fold_listing, append_assoc.
  - destruct (lines_of_contains _ _ Hu) as [pre [post E]].
    exists (msg_listing_head ++ pre), (post ++ nl).
    rewrite E. now rewrite !append_assoc.
Qed.

Lemma publish_lists_every_domain_witness :
  no_domain_yet example_published = false /\
  In "https://mydocs.gendocs.io" (listed_domains example_published) /\
  listed_domains example_published =
    ["https://docs.example.com"; "https://mydocs.gendocs.io"] /\
  publish "TypeError" (Some example_config) (Some "tk") ["<h1>Intro</h1>"]
          (Http.Resolved example_published) =
    ([Send (Repository.publish "tk" ["<h1>Intro</h1>"]
              (Config.delete_token example_config));
      Log Info (msg_listing_head ++ lines_of (listed_domains example_published) ++ nl)],
     None) /\
  contains (nl ++ tab ++ "   - " ++ "https://mydocs.gendocs.io")
           (msg_listing_head ++ lines_of (listed_domains example_published) ++ nl).
Proof.
  split; [reflexivity|]. split; [simpl; auto|]. split; [reflexivity|].
  apply (publish_lists_every_domain "TypeError" example_config "tk"
           "<h1>Intro</h1>" [] example_published "https://mydocs.gendocs.io").
  - reflexivity.
  - simpl; auto.
Defined.

(** X10. When the request of [publish] is rejected and [run] catches
    what the handler throws: a 403 gives the rate-limit line alone,
    whatever errors the response lists; another response is reported by
    [handleCommandHandlerError]; and an error without a response (the
    server cannot be reached) makes the [catch] of [publish] itself fail,
    so that the text logged is the one of that [TypeError] and the
    message of the original error is not logged. *)
Theorem publish_rejection_report (tmsg : string) (c : Config.config)
    (tk : string) (p : Repository.page) (ps : list Repository.page)
    (e : Http.error) :
  run_handler (publish tmsg (Some c) (Some tk) (p :: ps) (Http.Rejected e)) =
  (Send (Repository.publish tk (p :: ps) (Config.delete_token c)) ::
   match status_is 403 e with
   | Matches => [Log Info msg_rate_limit]
   | Differs => handleCommandHandlerError e
   | Throws => [LogWith Error tmsg (type_error tmsg)]
   end)%list /\
  (Http.response e = None ->
   run_handler (publish tmsg (Some c) (Some tk) (p :: ps) (Http.Rejected e)) =
   [Send (Repository.publish tk (p :: ps) (Config.delete_token c));
    LogWith Error tmsg (type_error tmsg)]).
Proof.
  split.
  - unfold publish, run_handler. now destruct (status_is 403 e).
  - intros H. unfold publish, run_handler, status_is. now rewrite H.
Qed.

Lemma publish_rejection_report_witness :
  Http.response network_error = None /\
  run_handler (publish "Cannot read property 'status' of undefined"
                 (Some example_config) (Some "tk") ["<h1>Intro</h1>"]
                 (Http.Rejected network_error)) =
  [Send (Repository.publish "tk" ["<h1>Intro</h1>"] (Config.delete_token example_config));
   LogWith Error "Cannot read property 'status' of undefined"
           (type_error "Cannot read property 'status' of undefined")].
Proof.
  split; [reflexivity|].
  apply (proj2 (publish_rejection_report "Cannot read property 'status' of undefined"
                  example_config "tk" "<h1>Intro</h1>" [] network_error)).
  reflexivity.
Defined.

(** ** [register] *)

(** X11. [register] logs that the registration was successful exactly
    when the invitation validates, the email is not in use and
    [createUser] resolves. *)
Theorem register_success_iff (tmsg invitation email password : string)
    (validated : Http.answer unit) (emailExists : Http.answer bool)
    (created : Http.answer unit) :
  In (Log Info msg_registered)
     (fst (register tmsg invitation validated email emailExists password created)) <->
  validated = Http.Resolved tt /\ emailExists = Http.Resolved false /\
  created = Http.Resolved tt.
Proof.
  unfold register. split.
  - destruct validated as [[]|e].
    + destruct emailExists as [[|]|e].
      * intros H. not_in_trace H.
      * destruct created as [[]|e]; [auto|].
        destruct (status_is 401 e); intros H; not_in_trace H.
      * intros H. not_in_trace H.
    + destruct (status_is 401 e); intros H; not_in_trace H.
  - intros [-> [-> ->]]. simpl. auto 10.
Qed.

(** X12. [register] asks for the email only after the invitation has
    validated, and asks for the password and sends [createUser] only
    after the server has also said that the email is not in use: no user
    is created for an invalid invitation or a used email. *)
Theorem register_requests (tmsg invitation email password : string)
    (validated : Http.answer unit) (emailExists : Http.answer bool)
    (created : Http.answer unit) :
  sends (fst (register tmsg invitation validated email emailExists password created)) =
    (Repository.validateInvitation invitation ::
     match validated with
     | Http.Rejected _ => []
     | Http.Resolved _ =>
         Repository.doesEmailExist email ::
         match emailExists with
         | Http.Resolved false => [Repository.createUser invitation email password]
         | _ => []
         end
     end) /\
  asks (fst (register tmsg invitation validated email emailExists password created)) =
    (PromptInvitation ::
     match validated with
     | Http.Rejected _ => []
     | Http.Resolved _ =>
         PromptEmail ::
         match emailExists with
         | Http.Resolved false => [PromptPassword]
         | _ => []
         end
     end).
Proof.
  unfold register.
  destruct validated as [u|e].
  - destruct emailExists as [[|]|e]; [auto| |auto].
    destruct created as [u'|e]; [auto|].
    destruct (status_is 401 e); auto.
  - destruct (status_is 401 e); auto.
Qed.

(** X13. How [run] reports a failure of [register] depends on the call
    it hits. A 401 from [validateInvitation] or [createUser] gives the
    invalid-invitation line. A failure without a response makes the
    [catch] around these two calls fail, and the [TypeError] is what is
    logged; the same failure of [doesEmailExist], which has no [catch],
    is logged with its own message. *)
Theorem register_rejection_report (tmsg invitation email password : string)
    (e : Http.error) (emailExists : Http.answer bool) (created : Http.answer unit) :
  (status_is 401 e = Matches ->
   run_handler (register tmsg invitation (Http.Rejected e) email emailExists
                  password created) =
   [Log Info msg_register_intro; Ask PromptInvitation;
    Send (Repository.validateInvitation invitation);
    Log Info msg_invitation_invalid] /\
   run_handler (register tmsg invitation (Http.Resolved tt) email (Http.Resolved false)
                  password (Http.Rejected e)) =
   [Log Info msg_register_intro; Ask PromptInvitation;
    Send (Repository.validateInvitation invitation);
    Ask PromptEmail; Send (Repository.doesEmailExist email);
    Ask PromptPassword; Send (Repository.createUser invitation email password);
    Log Info msg_invitation_invalid]) /\
  (Http.response e = None ->
   run_handler (register tmsg invitation (Http.Rejected e) email emailExists
                  password created) =
   [Log Info msg_register_intro; Ask PromptInvitation;
    Send (Repository.validateInvitation invitation);
    LogWith Error tmsg (type_error tmsg)]) /\
  (Http.response e = None ->
   run_handler (register tmsg invitation (Http.Resolved tt) email (Http.Rejected e)
                  password created) =
   [Log Info msg_register_intro; Ask PromptInvitation;
    Send (Repository.validateInvitation invitation);
    Ask PromptEmail; Send (Repository.doesEmailExist email);
    LogWith Error (Http.message e) e]).
Proof.
  unfold register, run_handler. repeat split.
  - now rewrite H.
  - now rewrite H.
  - intros H. unfold status_is. now rewrite H.
  - intros H. simpl. unfold handleCommandHandlerError. now rewrite H.
Qed.

Lemma register_rejection_report_witness :
  status_is 401 (status_error 401) = Matches /\
  run_handler (register "TypeError" "inv-1" (Http.Rejected (status_error 401))
                 "a@b.c" (Http.Resolved false) "pw" (Http.Resolved tt)) =
  [Log Info msg_register_intro; Ask PromptInvitation;
   Send (Repository.validateInvitation "inv-1");
   Log Info msg_invitation_invalid] /\
  Http.response network_error = None /\
  run_handler (register "TypeError" "inv-1" (Http.Rejected network_error)
                 "a@b.c" (Http.Resolved false) "pw" (Http.Resolved tt)) =
  [Log Info msg_register_intro; Ask PromptInvitation;
   Send (Repository.validateInvitation "inv-1");
   LogWith Error "TypeError" (type_error "TypeError")] /\
  run_handler (register "TypeError" "inv-1" (Http.Resolved tt)
                 "a@b.c" (Http.Rejected network_error) "pw" (Http.Resolved tt)) =
  [Log Info msg_register_intro; Ask PromptInvitation;
   Send (Repository.validateInvitation "inv-1");
   Ask PromptEmail; Send (Repository.doesEmailExist "a@b.c");
   LogWith Error "connect ECONNREFUSED 127.0.0.1:4000" network_error].
Proof.
  split; [reflexivity|]. split.
  - apply (proj1 (register_rejection_report "TypeError" "inv-1" "a@b.c" "pw"
                    (status_error 401) (Http.Resolved false) (Http.Resolved tt))).
    reflexivity.
  - split; [reflexivity|]. split.
    + apply (proj1 (proj2 (register_rejection_report "TypeError" "inv-1" "a@b.c" "pw"
                      network_error (Http.Resolved false) (Http.Resolved tt)))).
      reflexivity.
    + apply (proj2 (proj2 (register_rejection_report "TypeError" "inv-1" "a@b.c" "pw"
                      network_error (Http.Resolved false) (Http.Resolved tt)))).
      reflexivity.
Defined.

(** ** [updateSubdomain] *)

Lemma updateSubdomain_taken_rounds (tmsg token : string)
    (tries : list (string * Http.error))
    (rest : list (option string * Http.answer string)) :
  Forall (fun p => status_is 400 (snd p) = Matches) tries ->
  updateSubdomain tmsg token (rejected_rounds tries ++ rest) =
  ((taken_rounds token tries ++ fst (updateSubdomain tmsg token rest))%list,
   snd (updateSubdomain tmsg token rest)).
Proof.
  induction 1 as [|[sd e] tries He _ IH].
  - simpl. now destruct (updateSubdomain tmsg token rest).
  - cbn [rejected_rounds map app fst snd updateSubdomain].
    simpl in He. rewrite He.
    fold (rejected_rounds tries). rewrite IH. reflexivity.
Qed.

(** X14. [updateSubdomain] asks again as long as the server answers 400:
    for every subdomain found taken it prompts, sends the request and
    logs that this subdomain is taken. When a subdomain is then accepted
    it logs the address of the site and stops: what the script holds
    after that round is never asked for. *)
Theorem updateSubdomain_retries_until_free (tmsg token : string)
    (tries : list (string * Http.error)) (sd full : string)
    (rest : list (option string * Http.answer string)) :
  Forall (fun p => status_is 400 (snd p) = Matches) tries ->
  updateSubdomain tmsg token
    (rejected_rounds tries ++ (Some sd, Http.Resolved full) :: rest) =
  ((taken_rounds token tries ++
    [Ask PromptSubdomain; Send (Repository.tryAddingSubdomain token sd);
     Log Info (msg_site_available full)])%list,
   Returned).
Proof.
  intros H. now rewrite (updateSubdomain_taken_rounds tmsg token tries _ H).
Qed.

Lemma updateSubdomain_retries_until_free_witness :
  Forall (fun p => status_is 400 (snd p) = Matches)
         [("docs", status_error 400); ("mydocs", status_error 400)] /\
  updateSubdomain "TypeError" "tk"
    (rejected_rounds [("docs", status_error 400); ("mydocs", status_error 400)] ++
     (Some "my-docs", Http.Resolved "https://my-docs.gendocs.io") ::
     [(Some "other", Http.Resolved "https://other.gendocs.io")]) =
  ((taken_rounds "tk" [("docs", status_error 400); ("mydocs", status_error 400)] ++
    [Ask PromptSubdomain; Send (Repository.tryAddingSubdomain "tk" "my-docs");
     Log Info (msg_site_available "https://my-docs.gendocs.io")])%list,
   Returned).
Proof.
  split; [repeat constructor|].
  apply (updateSubdomain_retries_until_free "TypeError" "tk"
           [("docs", status_error 400); ("mydocs", status_error 400)]).
  repeat constructor.
Defined.

(** X15. An error of [tryAddingSubdomain] that has a response with a
    status other than 400 is swallowed: after the rounds found taken, the
    command prompts, sends, and returns without logging anything about
    the failure and without asking again. An error without a response
    makes the [catch] fail instead, and nobody handles that rejection. *)
Theorem updateSubdomain_swallows_other_errors (tmsg token : string)
    (tries : list (string * Http.error)) (sd : string) (e : Http.error)
    (rest : list (option string * Http.answer string)) :
  Forall (fun p => status_is 400 (snd p) = Matches) tries ->
  (status_is 400 e = Differs ->
   updateSubdomain tmsg token
     (rejected_rounds tries ++ (Some sd, Http.Rejected e) :: rest) =
   ((taken_rounds token tries ++
     [Ask PromptSubdomain; Send (Repository.tryAddingSubdomain token sd)])%list,
    Returned)) /\
  (Http.response e = None ->
   updateSubdomain tmsg token
     (rejected_rounds tries ++ (Some sd, Http.Rejected e) :: rest) =
   ((taken_rounds token tries ++
     [Ask PromptSubdomain; Send (Repository.tryAddingSubdomain token sd)])%list,
    Unhandled (type_error tmsg))).
Proof.
  intros H. rewrite (updateSubdomain_taken_rounds tmsg token tries _ H). split.
  - intros He. simpl. now rewrite He.
  - intros He. simpl. unfold status_is. now rewrite He.
Qed.

Lemma updateSubdomain_swallows_other_errors_witness :
  Forall (fun p => status_is 400 (snd p) = Matches) [("docs", status_error 400)] /\
  status_is 400 (status_error 500) = Differs /\
  updateSubdomain "TypeError" "tk"
    (rejected_rounds [("docs", status_error 400)] ++
     (Some "mydocs", Http.Rejected (status_error 500)) :: []) =
  ((taken_rounds "tk" [("docs", status_error 400)] ++
    [Ask PromptSubdomain; Send (Repository.tryAddingSubdomain "tk" "mydocs")])%list,
   Returned) /\
  Http.response network_error = None /\
  updateSubdomain "TypeError" "tk"
    (rejected_rounds [("docs", status_error 400)] ++
     (Some "mydocs", Http.Rejected network_error) :: []) =
  ((taken_rounds "tk" [("docs", status_error 400)] ++
    [Ask PromptSubdomain; Send (Repository.tryAddingSubdomain "tk" "mydocs")])%list,
   Unhandled (type_error "TypeError")).
Proof.
  split; [repeat constructor|]. split; [reflexivity|]. split.
  - apply (proj1 (updateSubdomain_swallows_other_errors "TypeError" "tk"
                    [("docs", status_error 400)] "mydocs" (status_error 500) []
                    ltac:(repeat constructor))).
    reflexivity.
  - split; [reflexivity|].
    apply (proj2 (updateSubdomain_swallows_other_errors "TypeError" "tk"
                    [("docs", status_error 400)] "mydocs" network_error []
                    ltac:(repeat constructor))).
    reflexivity.
Defined.

(** * The monitor: further properties *)

Lemma step_response_frame (domain : string) (s s' : state) (id : nat) (r : result) :
  step domain s (Response id r) = Some s' ->
  issued s' = issued s /\
  (List.length (inflight s') < List.length (inflight s))%nat /\
  (timeout_timer s' = None \/ timeout_timer s' = timeout_timer s) /\
  filter is_contact_line (output s') = filter is_contact_line (output s).
Proof.
  simpl. destruct (existsb (Nat.eqb id) (inflight s)) eqn:Hin; [|discriminate].
  intros H. inv H.
  destruct (resume_inflight domain r (settle id s)) as [Ef [En _]].
  rewrite Ef, En. split; [reflexivity|]. split.
  { simpl. apply remove_length_lt. now apply existsb_eqb_In. }
  destruct (resume_cases domain r (settle id s))
    as [[_ E]|[[_ [_ E]]|[[_ [_ E]]|[_ [_ E]]]]]; rewrite E;
    unfold clearTimeout_if_set; simpl; destruct (timeout s); simpl;
    rewrite ?filter_app; simpl; rewrite ?app_nil_r; auto.
Qed.

Lemma run_counts (domain : string) (sch : list event) :
  forall (s s' : state),
    wf s -> run domain s sch = Some s' ->
    issued s' = (issued s + List.length (filter is_tick sch))%nat /\
    (List.length (filter is_response sch) + List.length (inflight s') <=
     List.length (inflight s) + List.length (filter is_tick sch))%nat /\
    (List.length (filter is_deadline sch) <=
     match timeout_timer s with Some _ => 1 | None => 0 end)%nat /\
    List.length (filter is_contact_line (output s')) =
    (List.length (filter is_contact_line (output s)) +
     List.length (filter is_deadline sch))%nat.
Proof.
  induction sch as [|e sch IH]; simpl; intros s s' Hw Hr.
  - inv Hr. repeat split; lia.
  - destruct (step domain s e) as [s1|] eqn:Hs; [|discriminate].
    pose proof (wf_step domain s s1 e Hw Hs) as Hw1.
    destruct (IH s1 s' Hw1 Hr) as [I1 [I2 [I3 I4]]].
    destruct e as [| | id r]; simpl.
    + destruct (step_tick_issues domain s s1 Hw Hs)
        as [_ [En [_ [Et [Eo Ef]]]]].
      rewrite En in I1. rewrite Ef, length_app in I2. simpl in I2.
      rewrite Et in I3. rewrite Eo in I4. repeat split; lia.
    + destruct (step_deadline_clears domain s s1 Hw Hs)
        as [_ [_ [Et [Eo [Ef En]]]]].
      rewrite En in I1. rewrite Ef in I2. rewrite Et in I3.
      rewrite Eo, filter_app, length_app in I4. simpl in I4.
      simpl in Hs. destruct (timeout_timer s); [|discriminate].
      repeat split; lia.
    + destruct (step_response_frame domain s s1 id r Hs) as [En [Ef [Et Eo]]].
      rewrite En in I1. rewrite Eo in I4.
      repeat split; try lia.
      destruct Et as [Et|Et]; rewrite Et in I3; [|exact I3].
      destruct (timeout_timer s); lia.
Qed.

Lemma schedule_length (sch : list event) :
  List.length sch =
  (List.length (filter is_tick sch) + List.length (filter is_deadline sch) +
   List.length (filter is_response sch))%nat.
Proof.
  induction sch as [|[| |id r] sch IH]; simpl; lia.
Qed.

(** X16. In every schedule of the monitor, overlapping or not, at most
    40 polls are made: the number of remote calls is the number of ticks,
    and no more than 40 ticks fit before the deadline. *)
Theorem monitor_polls_at_most_40 (domain : string) (sch : list event) (s : state) :
  run domain domains_add_monitor sch = Some s ->
  issued s = List.length (filter is_tick sch) /\
  (List.length (filter is_tick sch) <= 40)%nat.
Proof.
  intros Hr.
  destruct (run_counts domain sch _ _ wf_start Hr) as [I1 _].
  pose proof (wf_issued s (wf_run domain sch _ _ wf_start Hr)) as Hn.
  simpl in I1. lia.
Qed.

Lemma monitor_polls_at_most_40_witness :
  run example_domain domains_add_monitor (poll_rounds pending 0 40 ++ [Deadline]) =
    Some example_timed_out /\
  issued example_timed_out =
    List.length (filter is_tick (poll_rounds pending 0 40 ++ [Deadline])) /\
  (List.length (filter is_tick (poll_rounds pending 0 40 ++ [Deadline])) <= 40)%nat.
Proof.
  split; [vm_compute; reflexivity|].
  apply (monitor_polls_at_most_40 example_domain).
  vm_compute; reflexivity.
Defined.

(** X17. In every schedule of the monitor the deadline fires at most
    once, and the log holds the contact-us line of the timeout callback
    once for each time it fired: that line is never logged twice. *)
Theorem monitor_deadline_at_most_once (domain : string) (sch : list event)
    (s : state) :
  run domain domains_add_monitor sch = Some s ->
  (List.length (filter is_deadline sch) <= 1)%nat /\
  List.length (filter is_contact_line (output s)) =
  List.length (filter is_deadline sch).
Proof.
  intros Hr.
  destruct (run_counts domain sch _ _ wf_start Hr) as [_ [_ [I3 I4]]].
  simpl in I3, I4. split; [exact I3 | exact I4].
Qed.

Lemma monitor_deadline_at_most_once_witness :
  run example_domain domains_add_monitor (poll_rounds pending 0 40 ++ [Deadline]) =
    Some example_timed_out /\
  (List.length (filter is_deadline (poll_rounds pending 0 40 ++ [Deadline])) <= 1)%nat /\
  List.length (filter is_contact_line (output example_timed_out)) =
  List.length (filter is_deadline (poll_rounds pending 0 40 ++ [Deadline])).
Proof.
  split; [vm_compute; reflexivity|].
  apply (monitor_deadline_at_most_once example_domain).
  vm_compute; reflexivity.
Defined.

(** X18. The monitor always comes to rest: a schedule has at most 40
    ticks, one deadline and one response for each call made, 81 events
    in all, whatever the server answers and in whatever order. *)
Theorem monitor_schedule_bounded (domain : string) (sch : list event) (s : state) :
  run domain domains_add_monitor sch = Some s ->
  (List.length (filter is_response sch) <= List.length (filter is_tick sch))%nat /\
  (List.length sch <= 81)%nat.
Proof.
  intros Hr.
  destruct (run_counts domain sch _ _ wf_start Hr) as [I1 [I2 [I3 _]]].
  pose proof (wf_issued s (wf_run domain sch _ _ wf_start Hr)) as Hn.
  simpl in I1, I2, I3. rewrite (schedule_length sch). lia.
Qed.

Lemma monitor_schedule_bounded_witness :
  run example_domain domains_add_monitor (poll_rounds pending 0 40 ++ [Deadline]) =
    Some example_timed_out /\
  (List.length (filter is_response (poll_rounds pending 0 40 ++ [Deadline])) <=
   List.length (filter is_tick (poll_rounds pending 0 40 ++ [Deadline])))%nat /\
  (List.length (poll_rounds pending 0 40 ++ [Deadline]) <= 81)%nat.
Proof.
  split; [vm_compute; reflexivity|].
  apply (monitor_schedule_bounded example_domain _ example_timed_out).
  vm_compute; reflexivity.
Defined.

Lemma resume_invalid_domain (domain : string) (s : state) :
  interval_callback_resume domain (failed "invalid_domain") s =
  logger_info (msg_malformed domain) s.
Proof. reflexivity. Qed.

Lemma invalid_rounds (domain : string) (k : nat) :
  forall s : state,
    wf s -> interval s <> None -> timeout_timer s <> None ->
    inflight s = [] -> (issued s + k <= 40)%nat ->
    exists s',
      run domain s (poll_rounds (failed "invalid_domain") (issued s) k) = Some s' /\
      wf s' /\
      output s' = (output s ++ repeat (Info, msg_malformed domain) k)%list /\
      interval s' <> None /\ timeout_timer s' <> None /\
      inflight s' = [] /\ issued s' = (issued s + k)%nat.
Proof.
  induction k as [|k IH]; intros s Hw Hi Ht Hf Hn.
  - exists s. simpl. rewrite app_nil_r, Nat.add_0_r. auto 10.
  - destruct (wf_interval s Hw) as [E|E]; [contradiction|].
    destruct (wf_deadline s Hw) as [D|D]; [contradiction|].
    destruct (step domain s Tick) as [s1|] eqn:Hs1.
    2:{ simpl in Hs1. rewrite E, D in Hs1. simpl in Hs1.
        unfold POLL_INTERVAL_MS, DEADLINE_MS in Hs1.
        replace (500 * (Z.of_nat (issued s) + 1) <=? 20000)%Z with true in Hs1
          by (symmetry; apply Z.leb_le; lia).
        discriminate. }
    pose proof (wf_step domain s s1 Tick Hw Hs1) as Hw1.
    destruct (step_tick_issues domain s s1 Hw Hs1)
      as [_ [En1 [Ei1 [Et1 [Eo1 Ef1]]]]].
    rewrite Hf in Ef1. simpl in Ef1.
    assert (Hin : In (issued s) (inflight s1)) by (rewrite Ef1; simpl; auto).
    pose proof (step_response_Some domain s1 (issued s)
                  (failed "invalid_domain") Hin) as Hs2.
    rewrite resume_invalid_domain in Hs2.
    pose proof (wf_step domain s1 _ _ Hw1 Hs2) as Hw2.
    destruct (IH (logger_info (msg_malformed domain) (settle (issued s) s1)))
      as [s' [Hr [Hw' [Ho [Hi' [Ht' [Hf' Hn']]]]]]].
    + exact Hw2.
    + simpl. rewrite Ei1. discriminate.
    + simpl. now rewrite Et1.
    + simpl. rewrite Ef1. simpl. now destruct (Nat.eq_dec (issued s) (issued s)).
    + simpl. lia.
    + exists s'.
      assert (En2 : issued (logger_info (msg_malformed domain)
                              (settle (issued s) s1)) = S (issued s))
        by (simpl; exact En1).
      assert (Eo2 : output (logger_info (msg_malformed domain)
                              (settle (issued s) s1)) =
                    (output s ++ [(Info, msg_malformed domain)])%list)
        by (simpl; now rewrite Eo1).
      rewrite En2 in Hr, Hn'. rewrite Eo2 in Ho.
      split.
      { cbn [poll_rounds run]. rewrite Hs1, Hs2. exact Hr. }
      split; [exact Hw'|]. split.
      { rewrite Ho, <- app_assoc. reflexivity. }
      repeat split; auto. lia.
Qed.

Lemma outcomes_repeat_malformed (domain : string) (k : nat) :
  outcomes domain (repeat (Info, msg_malformed domain) k) =
  repeat (FailedTerminal (msg_malformed domain)) k.
Proof.
  induction k as [|k IH]; [reflexivity|].
  change (outcomes domain (repeat (Info, msg_malformed domain) (S k)))
    with (outcome_of domain (Info, msg_malformed domain) ++
          outcomes domain (repeat (Info, msg_malformed domain) k))%list.
  unfold outcome_of. now rewrite classify_malformed, IH.
Qed.

(** X19. When the remote service keeps answering
    [{status: "error", context: "invalid_domain"}], nothing stops the
    monitor: after k polls, each answered before the next tick, the log
    holds the opening line and k copies of the malformed-domain message,
    both timers are still armed, and once 39 polls were made the deadline
    can fire and adds the contact-us error to them. *)
Theorem invalid_domain_repeats (domain : string) (k : nat) :
  (k <= 40)%nat ->
  exists s,
    run domain domains_add_monitor (poll_rounds (failed "invalid_domain") 0 k) = Some s /\
    output s = (Info, msg_generating) :: repeat (Info, msg_malformed domain) k /\
    outcomes domain (output s) = repeat (FailedTerminal (msg_malformed domain)) k /\
    interval s <> None /\ timeout_timer s <> None /\
    ((39 <= k)%nat ->
     exists s', step domain s Deadline = Some s' /\
       output s' = ((Info, msg_generating) :: repeat (Info, msg_malformed domain) k ++
                    [(Error, msg_contact)])%list).
Proof.
  intros Hk.
  destruct (invalid_rounds domain k domains_add_monitor)
    as [s [Hr [Hw [Ho [Hi [Ht [Hf Hn]]]]]]]; try (simpl; discriminate);
    [apply wf_start | reflexivity | simpl; lia |].
  exists s. simpl in Hr, Ho, Hn. repeat split; auto.
  - rewrite Ho.
    change (outcomes domain ((Info, msg_generating) :: repeat (Info, msg_malformed domain) k))
      with (outcome_of domain (Info, msg_generating) ++
            outcomes domain (repeat (Info, msg_malformed domain) k))%list.
    now rewrite outcomes_repeat_malformed.
  - intros H39.
    destruct (wf_interval s Hw) as [E|E]; [contradiction|].
    destruct (wf_deadline s Hw) as [D|D]; [contradiction|].
    destruct (step domain s Deadline) as [s'|] eqn:Hs.
    + exists s'. split; [reflexivity|].
      destruct (step_deadline_clears domain s s' Hw Hs) as [_ [_ [_ [Eo _]]]].
      now rewrite Eo, Ho.
    + simpl in Hs. rewrite E, D in Hs. simpl in Hs.
      unfold POLL_INTERVAL_MS, DEADLINE_MS in Hs.
      replace (20000 <=? 500 * (Z.of_nat (issued s) + 1))%Z with true in Hs
        by (symmetry; apply Z.leb_le; lia).
      discriminate.
Qed.

Lemma invalid_domain_repeats_witness :
  (40 <= 40)%nat /\
  exists s,
    run example_domain domains_add_monitor
        (poll_rounds (failed "invalid_domain") 0 40) = Some s /\
    output s = (Info, msg_generating) :: repeat (Info, msg_malformed example_domain) 40 /\
    outcomes example_domain (output s) =
      repeat (FailedTerminal (msg_malformed example_domain)) 40 /\
    interval s <> None /\ timeout_timer s <> None /\
    ((39 <= 40)%nat ->
     exists s', step example_domain s Deadline = Some s' /\
       output s' = ((Info, msg_generating) ::
                    repeat (Info, msg_malformed example_domain) 40 ++
                    [(Error, msg_contact)])%list).
Proof.
  split; [lia|].
  apply (invalid_domain_repeats example_domain 40). lia.
Defined.
